(** * GroupMe-Discord bridge: reply-context resolution and reaction relay

    A shallow embedding of [index.js] (the version with reply-context
    support) and the properties of its reply resolution, reaction
    extraction and webhook orchestration. *)

From Stdlib Require Import List NArith ZArith Bool Lia String Ascii.
Import ListNotations.

Set Implicit Arguments.

(* ================================================================== *)
(** * JavaScript strings

    A JavaScript string is a sequence of UTF-16 code units: [length],
    [substring], [includes], [===] and the regular expressions of the
    source all work on code units. *)

Definition jsstring := list N.

(** An ASCII literal of the source. *)
Definition lit (s : string) : jsstring :=
  map N_of_ascii (list_ascii_of_string s).

Fixpoint str_eqb (a b : jsstring) : bool :=
  match a, b with
  | [], [] => true
  | x :: a', y :: b' => N.eqb x y && str_eqb a' b'
  | _, _ => false
  end.

(** [x === s] where [x] may be undefined or null and [s] is a string. *)
Definition opt_is (x : option jsstring) (s : jsstring) : bool :=
  match x with
  | Some v => str_eqb v s
  | None => false
  end.

(** Truthiness of a value that is a string, undefined or null. *)
Definition truthy (x : option jsstring) : bool :=
  match x with
  | Some (_ :: _) => true
  | _ => false
  end.

(** [x || d] for such a value and a string default. *)
Definition or_else (x : option jsstring) (d : jsstring) : jsstring :=
  match x with
  | Some (c :: s) => c :: s
  | _ => d
  end.

Fixpoint starts_with (needle hay : jsstring) : bool :=
  match needle, hay with
  | [], _ => true
  | x :: n', y :: h' => N.eqb x y && starts_with n' h'
  | _ :: _, [] => false
  end.

(** [hay.includes(needle)] *)
Fixpoint includes (hay needle : jsstring) : bool :=
  starts_with needle hay ||
  match hay with
  | [] => false
  | _ :: h' => includes h' needle
  end.

(** [s.substring(0, n)] *)
Definition substring0 (s : jsstring) (n : nat) : jsstring := firstn n s.

Fixpoint take_while (p : N -> bool) (s : jsstring) : jsstring :=
  match s with
  | c :: s' => if p c then c :: take_while p s' else []
  | [] => []
  end.

(* ------------------------------------------------------------------ *)
(** ** Character classes of the regular expressions *)

Local Open Scope N_scope.

(** [\w]: ASCII letters, digits and the underscore. *)
Definition is_word (c : N) : bool :=
  ((48 <=? c) && (c <=? 57)) || ((65 <=? c) && (c <=? 90)) ||
  ((97 <=? c) && (c <=? 122)) || (c =? 95).

(** Line terminators: LF, CR, U+2028, U+2029.  [.] matches anything else,
    and with the [m] flag [^] and [$] match next to them. *)
Definition is_line_terminator (c : N) : bool :=
  (c =? 10) || (c =? 13) || (c =? 8232) || (c =? 8233).

(** [\s]: white space and line terminators. *)
Definition is_space (c : N) : bool :=
  ((9 <=? c) && (c <=? 13)) || (c =? 32) || (c =? 160) || (c =? 5760) ||
  ((8192 <=? c) && (c <=? 8202)) || (c =? 8232) || (c =? 8233) ||
  (c =? 8239) || (c =? 8287) || (c =? 12288) || (c =? 65279).

Definition at_sign : N := 64.
Definition gt_sign : N := 62.
Definition colon : N := 58.

Local Close Scope N_scope.

(* ------------------------------------------------------------------ *)
(** ** The three patterns of [detectReplyFromText]

    Each function returns capture group 1 of the first (leftmost) match,
    as [text.match(pattern)[1]] does, or [None] when [match] gives null. *)

(** [/@(\w+)/] *)
Fixpoint mentionPattern (text : jsstring) : option jsstring :=
  match text with
  | [] => None
  | c :: rest =>
      if N.eqb c at_sign then
        match take_while is_word rest with
        | [] => mentionPattern rest
        | w => Some w
        end
      else mentionPattern rest
  end.

(** [(.+)], greedy, with nothing after it. *)
Definition dot_plus (s : jsstring) : option jsstring :=
  match take_while (fun c => negb (is_line_terminator c)) s with
  | [] => None
  | cap => Some cap
  end.

(** [\s*(.+)]: the star takes white space greedily and gives it back
    until [(.+)] finds a character to start on. *)
Fixpoint spaces_dot_plus (s : jsstring) : option jsstring :=
  match s with
  | [] => None
  | c :: s' =>
      if is_space c then
        match spaces_dot_plus s' with
        | Some cap => Some cap
        | None => dot_plus s
        end
      else dot_plus s
  end.

(** [>\s*(.+)] tried at one position. *)
Definition quote_at (s : jsstring) : option jsstring :=
  match s with
  | c :: s' => if N.eqb c gt_sign then spaces_dot_plus s' else None
  | [] => None
  end.

(** [\s*$] with the [m] flag. *)
Fixpoint spaces_eol (s : jsstring) : bool :=
  match s with
  | [] => true
  | c :: s' => is_line_terminator c || (is_space c && spaces_eol s')
  end.

(** [(.+):\s*$] tried at one position: the longest capture first. *)
Fixpoint colon_at (s : jsstring) : option jsstring :=
  match s with
  | [] => None
  | c :: s' =>
      if is_line_terminator c then None
      else
        match colon_at s' with
        | Some cap => Some (c :: cap)
        | None =>
            match s' with
            | c2 :: s2 =>
                if N.eqb c2 colon && spaces_eol s2 then Some [c] else None
            | [] => None
            end
        end
  end.

(** [^] with the [m] flag: the pattern is tried at the start of the text
    and after every line terminator, leftmost first. *)
Fixpoint at_line_starts (try : jsstring -> option jsstring)
         (line_start : bool) (s : jsstring) : option jsstring :=
  match (if line_start then try s else None) with
  | Some cap => Some cap
  | None =>
      match s with
      | [] => None
      | c :: s' => at_line_starts try (is_line_terminator c) s'
      end
  end.

(** [/^>\s*(.+)/m] *)
Definition quotePattern (text : jsstring) : option jsstring :=
  at_line_starts quote_at true text.

(** [/^(.+):\s*$/m] *)
Definition colonPattern (text : jsstring) : option jsstring :=
  at_line_starts colon_at true text.

Definition replyPatterns : list (jsstring -> option jsstring) :=
  [quotePattern; colonPattern].

(* ================================================================== *)
(** * Payloads *)

(** An entry of [message.attachments]. *)
Record Attachment := {
  att_type : jsstring;
  url : option jsstring;
  reply_id : option jsstring;
  base_reply_id : option jsstring
}.

(** An entry of [data.favorited_by]. *)
Record Reactor := {
  emoji : option jsstring;
  nickname : option jsstring;
  image_url : option jsstring
}.

(** A GroupMe message: the webhook payload and the entries of a history
    page.  Identifiers are strings; the members the source guards with
    [&&], [||] or [!] may be undefined or null ([None]). *)
Record Message := {
  id : jsstring;
  group_id : jsstring;
  user_id : jsstring;
  name : option jsstring;
  text : option jsstring;
  avatar_url : option jsstring;
  sender_type : option jsstring;
  attachments : option (list Attachment);
  favorited_by : option (list Reactor)
}.

(** The object [handleGroupMeWebhook] builds for a reaction. *)
Record ReactionData := {
  rd_favorited_by : Reactor;
  rd_message_id : jsstring;
  rd_group_id : jsstring
}.

(** The JSON body posted to the Discord webhook. *)
Record DiscordPayload := {
  username : jsstring;
  content : jsstring;
  payload_avatar_url : option jsstring;
  embeds : option (list (option jsstring))
}.

(** The object [handleGroupMeWebhook] returns; a member the object
    literal does not have is [None]. *)
Record WebhookResult := {
  success : bool;
  ignored : option bool;
  type : option jsstring;
  hasReply : option bool
}.

(** A parsed webhook address, as [new URL(...)] gives it. *)
Record URL := {
  hostname : jsstring;
  port : option jsstring;
  pathname : jsstring;
  protocol : jsstring
}.

(** The environment variables read when the module loads.
    [DISCORD_WEBHOOK_URL] is [None] when the variable is unset or is not
    an address: [new URL(DISCORD_WEBHOOK_URL)] throws then. *)
Record Env := {
  DISCORD_WEBHOOK_URL : option URL;
  GROUPME_BOT_ID : option jsstring;
  GROUPME_ACCESS_TOKEN : option jsstring
}.

(* ================================================================== *)
(** * Requests and responses *)

(** What [makeRequest] is called with. *)
Inductive Request :=
| GetMessages (groupId : jsstring) (token : option jsstring) (limit : Z)
              (before_id : option jsstring)
    (** GET api.groupme.com
        /v3/groups/<groupId>/messages?token=<token>&limit=<limit>
        and [&before_id=<before_id>] when there is one *)
| PostWebhook (to : URL) (payload : DiscordPayload).
    (** POST of the JSON payload to the Discord webhook *)

(** The body of a response to [GetMessages], seen through
    [JSON.parse(response.body)] and [data.response.messages]. *)
Inductive Body :=
| Malformed
    (** [JSON.parse] throws, or [data.response] is undefined or null *)
| NoMessages
    (** [data.response.messages] is undefined *)
| Messages (ms : list Message).

Record Response := {
  statusCode : Z;
  body : Body
}.

(** The network: every request either gets a response or fails with an
    ['error'] event ([None]), and the remote side may change. *)
Class Network := {
  World : Type;
  respond : World -> Request -> option Response * World
}.

(** [String.prototype.toLowerCase], a built-in of the runtime. *)
Class Runtime := {
  toLowerCase : jsstring -> jsstring
}.

(* ================================================================== *)
(** * Effects

    The only effect of the functions below is [makeRequest]; a
    computation threads the state of the network and the list of the
    requests made so far, and completes normally or by a throw (a
    rejected promise, for an async function).  Console output is not
    modelled. *)

Inductive Exn := RequestError | SyntaxError | TypeError.

Inductive Completion (A : Type) :=
| Returned (a : A)
| Threw (e : Exn).

Arguments Threw {A} e.

Class Monad (m : Type -> Type) := {
  ret : forall {A}, A -> m A;
  bind : forall {A B}, m A -> (A -> m B) -> m B
}.

Notation "x <- c ;; k" := (bind c (fun x => k))
  (at level 61, c at next level, right associativity).

#[global] Instance Completion_Monad : Monad Completion := {
  ret := fun A a => Returned a;
  bind := fun A B c k =>
    match c with
    | Returned a => k a
    | Threw e => Threw e
    end
}.

Section Effects.
Context {net : Network}.

Record State := {
  world : World;
  trace : list Request
}.

Definition M (A : Type) := State -> Completion A * State.

#[global] Instance M_Monad : Monad M := {
  ret := fun A a st => (Returned a, st);
  bind := fun A B c k st =>
    match c st with
    | (Returned a, st') => k a st'
    | (Threw e, st') => (Threw e, st')
    end
}.

Definition throw {A} (e : Exn) : M A := fun st => (Threw e, st).

(** A pure computation that may throw, run inside an async function. *)
Definition lift {A} (c : Completion A) : M A := fun st => (c, st).

(** [try { c } catch (error) { h }] *)
Definition try_catch {A} (c : M A) (h : Exn -> M A) : M A :=
  fun st =>
    match c st with
    | (Returned a, st') => (Returned a, st')
    | (Threw e, st') => h e st'
    end.

(** [makeRequest(options, data)] (lines 13-31): the promise resolves
    with the response or rejects with the request's error. *)
Definition makeRequest (req : Request) : M Response :=
  fun st =>
    let (r, w) := respond (world st) req in
    (match r with
     | Some response => Returned response
     | None => Threw RequestError
     end,
     {| world := w; trace := trace st ++ [req] |}).
End Effects.

(** [arr.find(p)]; [None] for the receiver is undefined, on which the
    call throws, and [None] for the result is undefined. *)
Definition js_find {A} (arr : option (list A)) (p : A -> bool)
  : Completion (option A) :=
  match arr with
  | Some l => Returned (find p l)
  | None => Threw TypeError
  end.

(* ================================================================== *)
(** * Emoji conversion *)

(** What a read of [emojiMap[key]] can give: a string of the map, or a
    member of [Object.prototype], which the object literal inherits. *)
Inductive jsvalue :=
| VString (s : jsstring)
| VInherited (key : jsstring).

Definition bare_heart : jsstring := [10084%N].
Definition red_heart : jsstring := [10084%N; 65039%N].
Definition thumbs_up : jsstring := [55357%N; 56397%N].

(** The object literal [emojiMap], in UTF-16: U+2764 to U+2764 U+FE0F,
    then U+1F44D, U+1F44E, U+1F602, U+1F622, U+1F62E, U+1F621, U+1F44F
    and U+1FAA9, each to itself. *)
Definition emojiMap : list (jsstring * jsstring) :=
  [ (bare_heart, red_heart);
    (thumbs_up, thumbs_up);
    ([55357; 56398], [55357; 56398]);
    ([55357; 56834], [55357; 56834]);
    ([55357; 56866], [55357; 56866]);
    ([55357; 56878], [55357; 56878]);
    ([55357; 56865], [55357; 56865]);
    ([55357; 56399], [55357; 56399]);
    ([55358; 57001], [55358; 57001]) ]%N.

(** The names of the members of [Object.prototype]. *)
Definition objectPrototype : list jsstring :=
  map lit
    [ "constructor"; "__defineGetter__"; "__defineSetter__";
      "hasOwnProperty"; "__lookupGetter__"; "__lookupSetter__";
      "isPrototypeOf"; "propertyIsEnumerable"; "toString"; "valueOf";
      "__proto__"; "toLocaleString" ]%string.

Definition inherited (key : jsstring) : bool :=
  existsb (str_eqb key) objectPrototype.

(** The code units of those names: ASCII letters and the underscore. *)
Definition is_identifier_letter (c : N) : bool :=
  (((65 <=? c) && (c <=? 90)) || ((97 <=? c) && (c <=? 122)) || (c =? 95))%N.

Fixpoint own_property (obj : list (jsstring * jsstring)) (key : jsstring)
  : option jsstring :=
  match obj with
  | [] => None
  | (k, v) :: obj' => if str_eqb key k then Some v else own_property obj' key
  end.

(** [obj[key]]: an own property first, then the prototype; [None] is
    undefined. *)
Definition get (obj : list (jsstring * jsstring)) (key : jsstring)
  : option jsvalue :=
  match own_property obj key with
  | Some v => Some (VString v)
  | None => if inherited key then Some (VInherited key) else None
  end.

(** [convertReactionEmoji(groupmeEmoji)] (lines 165-180):
    [emojiMap[groupmeEmoji] || groupmeEmoji]. *)
Definition convertReactionEmoji (groupmeEmoji : jsstring) : jsvalue :=
  match get emojiMap groupmeEmoji with
  | Some (VString (c :: s)) => VString (c :: s)
  | Some (VInherited key) => VInherited key
  | _ => VString groupmeEmoji
  end.

(** The text a template literal gives for a value. *)
Definition to_String (v : jsvalue) : jsstring :=
  match v with
  | VString s => s
  | VInherited key =>
      if str_eqb key (lit "__proto__") then lit "[object Object]"
      else if str_eqb key (lit "constructor")
           then lit "function Object() { [native code] }"
           else lit "function " ++ key ++ lit "() { [native code] }"
  end.

(* ================================================================== *)
(** * The bridge *)

Definition double_quote : jsstring := [34%N].
Definition newline : jsstring := [10%N].

(** [att.type === 'reply'] *)
Definition is_reply (att : Attachment) : bool :=
  str_eqb (att_type att) (lit "reply").

(** [att.type === 'image'] *)
Definition is_image (att : Attachment) : bool :=
  str_eqb (att_type att) (lit "image").

(** [msg.id === replyAttachment.reply_id ||
     msg.id === replyAttachment.base_reply_id] *)
Definition replied_to (replyAttachment : Attachment) (msg : Message) : bool :=
  opt_is (reply_id replyAttachment) (id msg) ||
  opt_is (base_reply_id replyAttachment) (id msg).

(** [x || null] *)
Definition or_null (x : option jsstring) : option jsstring :=
  if truthy x then x else None.

(** [reactionData.favorited_by.emoji || <red heart>], converted. *)
Definition reactionEmoji (reactionData : ReactionData) : jsvalue :=
  convertReactionEmoji (or_else (emoji (rd_favorited_by reactionData)) red_heart).

(** [reactionData.favorited_by.nickname || 'Someone'] *)
Definition reacterName (reactionData : ReactionData) : jsstring :=
  or_else (nickname (rd_favorited_by reactionData)) (lit "Someone").

(** The preview of the reacted-upon message in a reaction notice. *)
Definition messagePreview (originalMessage : Message) : jsstring :=
  let messagePreview := or_else (text originalMessage) (lit "[No text content]") in
  if (100 <? List.length messagePreview)%nat
  then substring0 messagePreview 97 ++ lit "..."
  else messagePreview.

Definition reactionPayload (reactionData : ReactionData)
           (originalMessage : Message) : DiscordPayload :=
  {| username := lit "GroupMe Reactions";
     content := to_String (reactionEmoji reactionData) ++ lit " **" ++
                reacterName reactionData ++ lit "** reacted to: " ++
                double_quote ++ messagePreview originalMessage ++ double_quote;
     payload_avatar_url := or_null (image_url (rd_favorited_by reactionData));
     embeds := None |}.

(** The content of a bridged message, with the reply context when there
    is one. *)
Definition messageContent (message : Message) (replyContext : option Message)
  : jsstring :=
  let content := or_else (text message) (lit "[No text content]") in
  match replyContext with
  | Some replyContext =>
      let originalText := or_else (text replyContext) (lit "[No text content]") in
      let originalAuthor := or_else (name replyContext) (lit "Unknown User") in
      let originalPreview :=
        if (150 <? List.length originalText)%nat
        then substring0 originalText 147 ++ lit "..."
        else originalText in
      lit "**Replying to " ++ originalAuthor ++ lit ":** " ++ double_quote ++
      originalPreview ++ double_quote ++ newline ++ newline ++ content
  | None => content
  end.

Definition messageEmbeds (message : Message) : option (list (option jsstring)) :=
  match attachments message with
  | Some (a :: atts) =>
      match filter is_image (a :: atts) with
      | [] => None
      | images => Some (map url images)
      end
  | _ => None
  end.

Definition messagePayload (message : Message) (replyContext : option Message)
  : DiscordPayload :=
  {| username := or_else (name message) (lit "GroupMe User");
     content := messageContent message replyContext;
     payload_avatar_url := avatar_url message;
     embeds := messageEmbeds message |}.

(** The reaction branch of [handleGroupMeWebhook] (lines 318-322) is
    taken when [data.favorited_by && data.favorited_by.length > 0], on
    [data.favorited_by[data.favorited_by.length - 1]]. *)
Definition latestReaction (data : Message) : option Reactor :=
  match favorited_by data with
  | Some (r :: rs) => Some (nth (List.length (r :: rs) - 1) (r :: rs) r)
  | _ => None
  end.

Section Bridge.
Context {net : Network} {rt : Runtime} (env : Env).

(** [getGroupMeMessages(groupId, beforeId, limit)] (lines 60-88); the
    result [None] is undefined.  Every call of the source gives the three
    arguments. *)
Definition getGroupMeMessages (groupId : jsstring)
           (beforeId : option jsstring) (limit : Z)
  : M (option (list Message)) :=
  let path :=
    GetMessages groupId (GROUPME_ACCESS_TOKEN env) limit
                (if truthy beforeId then beforeId else None) in
  try_catch
    (response <- makeRequest path ;;
     if (statusCode response =? 200)%Z then
       match body response with
       | Malformed => throw SyntaxError
       | NoMessages => ret None
       | Messages ms => ret (Some ms)
       end
     else ret (Some []))
    (fun error => ret (Some [])).

(** [findReplyContext(message)] (lines 91-112) *)
Definition findReplyContext (message : Message) : M (option Message) :=
  match attachments message with
  | None | Some [] => ret None
  | Some atts =>
      match find is_reply atts with
      | None => ret None
      | Some replyAttachment =>
          messages <- getGroupMeMessages (group_id message)
                                         (Some (id message)) 50 ;;
          lift (js_find messages (replied_to replyAttachment))
      end
  end.

(** The test of the mention scan. *)
Definition mentions (mentionedName : jsstring) (message msg : Message) : bool :=
  match name msg with
  | Some (c :: s) => includes (toLowerCase (c :: s)) mentionedName
  | _ => false
  end &&
  negb (str_eqb (id msg) (id message)) &&
  negb (str_eqb (user_id msg) (user_id message)).

(** The test of the quoted-text scan. *)
Definition quotes (quotedText : jsstring) (message msg : Message) : bool :=
  match text msg with
  | Some (c :: s) => includes (toLowerCase (c :: s)) quotedText
  | _ => false
  end &&
  negb (str_eqb (id msg) (id message)) &&
  negb (str_eqb (user_id msg) (user_id message)).

(** The loop over [replyPatterns]. *)
Fixpoint scanPatterns (patterns : list (jsstring -> option jsstring))
         (message : Message) (text : jsstring)
         (recentMessages : option (list Message))
  : Completion (option Message) :=
  match patterns with
  | [] => ret None
  | pattern :: patterns' =>
      match pattern text with
      | Some capture =>
          let quotedText := toLowerCase capture in
          repliedMessage <- js_find recentMessages (quotes quotedText message) ;;
          match repliedMessage with
          | Some msg => ret (Some msg)
          | None => scanPatterns patterns' message text recentMessages
          end
      | None => scanPatterns patterns' message text recentMessages
      end
  end.

(** [detectReplyFromText(message, recentMessages)] (lines 115-162) *)
Definition detectReplyFromText (message : Message)
           (recentMessages : option (list Message))
  : Completion (option Message) :=
  match text message with
  | Some (c :: s) =>
      let text := c :: s in
      repliedMessage <-
        match mentionPattern text with
        | Some word =>
            let mentionedName := toLowerCase word in
            js_find recentMessages (mentions mentionedName message)
        | None => ret None
        end ;;
      match repliedMessage with
      | Some msg => ret (Some msg)
      | None => scanPatterns replyPatterns message text recentMessages
      end
  | _ => ret None
  end.

(** [sendToDiscord(message, replyContext)] (lines 183-237) *)
Definition sendToDiscord (message : Message) (replyContext : option Message)
  : M bool :=
  match DISCORD_WEBHOOK_URL env with
  | None => throw TypeError
  | Some webhookUrl =>
      try_catch
        (response <- makeRequest
           (PostWebhook webhookUrl (messagePayload message replyContext)) ;;
         ret (statusCode response <? 300)%Z)
        (fun error => ret false)
  end.

(** [sendReactionToDiscord(reactionData, originalMessage)]
    (lines 240-278) *)
Definition sendReactionToDiscord (reactionData : ReactionData)
           (originalMessage : Message) : M bool :=
  match DISCORD_WEBHOOK_URL env with
  | None => throw TypeError
  | Some webhookUrl =>
      try_catch
        (response <- makeRequest
           (PostWebhook webhookUrl
                        (reactionPayload reactionData originalMessage)) ;;
         ret (statusCode response <? 300)%Z)
        (fun error => ret false)
  end.

(** The reply context of a regular message, as [handleGroupMeWebhook]
    computes it into [replyContext] (lines 337-354). *)
Definition resolveReplyContext (data : Message) : M (option Message) :=
  if truthy (GROUPME_ACCESS_TOKEN env) then
    replyContext <- findReplyContext data ;;
    match replyContext with
    | Some msg => ret (Some msg)
    | None =>
        recentMessages <- getGroupMeMessages (group_id data)
                                             (Some (id data)) 20 ;;
        lift (detectReplyFromText data recentMessages)
    end
  else ret None.

(** [handleGroupMeWebhook(data)] (lines 310-359) *)
Definition handleGroupMeWebhook (data : Message) : M WebhookResult :=
  if opt_is (sender_type data) (lit "bot") then
    ret {| success := true; ignored := Some true;
           type := None; hasReply := None |}
  else
    match latestReaction data with
    | Some latestReaction =>
        let reactionData :=
          {| rd_favorited_by := latestReaction;
             rd_message_id := id data;
             rd_group_id := group_id data |} in
        success <- sendReactionToDiscord reactionData data ;;
        ret {| success := success; ignored := None;
               type := Some (lit "reaction"); hasReply := None |}
    | None =>
        replyContext <- resolveReplyContext data ;;
        success <- sendToDiscord data replyContext ;;
        ret {| success := success; ignored := None;
               type := Some (lit "message");
               hasReply := Some (match replyContext with
                                 | Some _ => true
                                 | None => false
                                 end) |}
    end.
End Bridge.

(* ================================================================== *)
(** * Concrete runtimes, networks and payloads *)

(** Lower-casing restricted to the ASCII letters; on ASCII text it is
    [toLowerCase]. *)
Definition asciiRuntime : Runtime :=
  {| toLowerCase :=
       map (fun c => if ((65 <=? c) && (c <=? 90))%N then (c + 32)%N else c) |}.

(** A network that answers the successive requests from a script,
    whatever they ask; when the script is over every request fails. *)
Definition scripted : Network :=
  {| World := list (option Response);
     respond := fun w _ =>
       match w with
       | [] => (None, [])
       | r :: w' => (r, w')
       end |}.

(** The messages of [log] posted before the one called [b], oldest
    first; [None] when no message is called [b]. *)
Fixpoint older_than (b : jsstring) (log : list Message)
  : option (list Message) :=
  match log with
  | [] => None
  | m :: log' =>
      if str_eqb (id m) b then Some []
      else option_map (cons m) (older_than b log')
  end.

(** A chat service holding the messages of one group, oldest first.  It
    serves a history page most recent first, cut at [limit], of the
    messages before the cursor when there is one, and accepts every
    post. *)
Definition chatService : Network :=
  {| World := list Message;
     respond := fun log req =>
       match req with
       | GetMessages _ _ limit None =>
           (Some {| statusCode := 200;
                    body := Messages (firstn (Z.to_nat limit) (rev log)) |},
            log)
       | GetMessages _ _ limit (Some b) =>
           match older_than b log with
           | Some older =>
               (Some {| statusCode := 200;
                        body := Messages (firstn (Z.to_nat limit) (rev older)) |},
                log)
           | None => (Some {| statusCode := 404; body := Malformed |}, log)
           end
       | PostWebhook _ _ =>
           (Some {| statusCode := 204; body := Malformed |}, log)
       end |}.

Definition webhook : URL :=
  {| hostname := lit "discord.com"; port := None;
     pathname := lit "/api/webhooks/1/t"; protocol := lit "https:" |}.

(** An environment with every variable set. *)
Definition configured : Env :=
  {| DISCORD_WEBHOOK_URL := Some webhook;
     GROUPME_BOT_ID := Some (lit "b1");
     GROUPME_ACCESS_TOKEN := Some (lit "tok") |}.

(** The same without the access token. *)
Definition tokenless : Env :=
  {| DISCORD_WEBHOOK_URL := Some webhook;
     GROUPME_BOT_ID := Some (lit "b1");
     GROUPME_ACCESS_TOKEN := None |}.

Definition plain (i u : string) (n t : string) : Message :=
  {| id := lit i; group_id := lit "g"; user_id := lit u;
     name := Some (lit n); text := Some (lit t);
     avatar_url := None; sender_type := Some (lit "user");
     attachments := Some []; favorited_by := Some [] |}.

Definition reply_to (target : string) : Attachment :=
  {| att_type := lit "reply"; url := None;
     reply_id := Some (lit target); base_reply_id := None |}.

Definition with_attachments (m : Message) (atts : list Attachment) : Message :=
  {| id := id m; group_id := group_id m; user_id := user_id m;
     name := name m; text := text m; avatar_url := avatar_url m;
     sender_type := sender_type m;
     attachments := Some atts; favorited_by := favorited_by m |}.

Definition with_reactors (m : Message) (rs : list Reactor) : Message :=
  {| id := id m; group_id := group_id m; user_id := user_id m;
     name := name m; text := text m; avatar_url := avatar_url m;
     sender_type := sender_type m;
     attachments := attachments m; favorited_by := Some rs |}.

Definition from_bot (m : Message) : Message :=
  {| id := id m; group_id := group_id m; user_id := user_id m;
     name := name m; text := text m; avatar_url := avatar_url m;
     sender_type := Some (lit "bot");
     attachments := attachments m; favorited_by := favorited_by m |}.

Definition with_text (m : Message) (t : option jsstring) : Message :=
  {| id := id m; group_id := group_id m; user_id := user_id m;
     name := name m; text := t; avatar_url := avatar_url m;
     sender_type := sender_type m;
     attachments := attachments m; favorited_by := favorited_by m |}.

Definition start {net : Network} (w : World) : State :=
  {| world := w; trace := [] |}.

(* ================================================================== *)
(** * Specification vocabulary *)

(** [r] is the first entry of [l], in the order of [l], that satisfies
    [P]; [None] when no entry does. *)
Definition first_such {A} (P : A -> Prop) (l : list A) (r : option A) : Prop :=
  match r with
  | Some e =>
      exists before after,
        l = before ++ e :: after /\ P e /\
        forall x, In x before -> ~ P x
  | None => forall x, In x l -> ~ P x
  end.

(** [e] is what the reply attachment points to: its identifier is the
    attachment's [reply_id] or its [base_reply_id]. *)
Definition targeted_by (replyAttachment : Attachment) (e : Message) : Prop :=
  reply_id replyAttachment = Some (id e) \/
  base_reply_id replyAttachment = Some (id e).

(** [needle] occurs in [hay] as a substring. *)
Definition substring_of (needle hay : jsstring) : Prop :=
  exists before after, hay = before ++ needle ++ after.

(** Status codes that mean success. *)
Definition success_status (s : Z) : bool := ((200 <=? s) && (s <? 300))%Z.

(** The two ways a history request fails: no response at all, or a
    response whose status is not a success. *)
Definition history_failure (outcome : option Response) : Prop :=
  match outcome with
  | None => True
  | Some response => success_status (statusCode response) = false
  end.

(** The request [getGroupMeMessages] sends for a group, a cursor that is
    a non-empty string, and a limit. *)
Definition history_request (env : Env) (groupId cursor : jsstring) (limit : Z)
  : Request :=
  GetMessages groupId (GROUPME_ACCESS_TOKEN env) limit
              (if truthy (Some cursor) then Some cursor else None).

(** Positions in the history of a group, oldest first. *)
Definition posted_at (log : list Message) (i : nat) (e : Message) : Prop :=
  nth_error log i = Some e.

Definition called_at (log : list Message) (j : nat) (b : jsstring) : Prop :=
  exists m, nth_error log j = Some m /\ id m = b.

(** [e] was posted strictly before the message called [b]. *)
Definition strictly_before (log : list Message) (e : Message) (b : jsstring)
  : Prop :=
  exists i j, posted_at log i e /\ called_at log j b /\ i < j.

(** [e] is the message called [b] or was posted after it. *)
Definition at_or_after (log : list Message) (e : Message) (b : jsstring)
  : Prop :=
  exists i j, posted_at log i e /\ called_at log j b /\ j <= i.

(** The before-cursor contract of the history service, for the history
    [log] of the group: a page served for a request with cursor [b]
    holds only messages posted strictly before the message called [b]. *)
Definition honors_before_cursor {net : Network} (log : list Message)
           (w : World) : Prop :=
  forall groupId token limit b response w' ms e,
    respond w (GetMessages groupId token limit (Some b)) = (Some response, w') ->
    statusCode response = 200%Z ->
    body response = Messages ms ->
    In e ms ->
    strictly_before log e b.

(** No request of the trace asks for history. *)
Definition no_history_fetch (t : list Request) : Prop :=
  forall groupId token limit before_id,
    ~ In (GetMessages groupId token limit before_id) t.

(** No request of the trace posts to the webhook. *)
Definition no_delivery (t : list Request) : Prop :=
  forall to payload, ~ In (PostWebhook to payload) t.

(** No [@] of [s] is directly followed by a word character. *)
Definition no_mention (s : jsstring) : Prop :=
  forall before c after,
    s = before ++ at_sign :: c :: after -> is_word c = false.

(** [token] is the first [@word] token of [text]: the longest run of word
    characters after the first [@] that is followed by one. *)
Definition first_mention (text token : jsstring) : Prop :=
  exists before after,
    text = before ++ at_sign :: token ++ after /\
    token <> [] /\
    Forall (fun c => is_word c = true) token /\
    match after with
    | c :: _ => is_word c = false
    | [] => True
    end /\
    no_mention (before ++ [at_sign]).

(** The first non-absent candidate. *)
Fixpoint first_of {A} (candidates : list (option A)) : option A :=
  match candidates with
  | [] => None
  | Some a :: _ => Some a
  | None :: candidates' => first_of candidates'
  end.

Section HeuristicVocabulary.
Context {rt : Runtime}.

(** The display name of [e], lower-cased, contains [token]. *)
Definition named_like (token : jsstring) (e : Message) : Prop :=
  exists n, name e = Some n /\ n <> [] /\
            substring_of token (toLowerCase n).

(** The text of [e], lower-cased, contains [fragment]. *)
Definition text_like (fragment : jsstring) (e : Message) : Prop :=
  exists t, text e = Some t /\ t <> [] /\
            substring_of fragment (toLowerCase t).

(** Self-exclusion: [e] is neither [message] nor by its author. *)
Definition other_than (message e : Message) : Prop :=
  id e <> id message /\ user_id e <> user_id message.

(** The scan of the mention pattern over a window. *)
Definition mentionScan (message : Message) (text : jsstring)
           (window : list Message) : option Message :=
  match mentionPattern text with
  | Some token => find (mentions (toLowerCase token) message) window
  | None => None
  end.

(** The scan of one of [replyPatterns] over a window. *)
Definition patternScan (pattern : jsstring -> option jsstring)
           (message : Message) (text : jsstring)
           (window : list Message) : option Message :=
  match pattern text with
  | Some capture => find (quotes (toLowerCase capture) message) window
  | None => None
  end.
End HeuristicVocabulary.

(** Scenario B: a reply to message 7, and a history page holding it. *)
Definition reply9 : Message :=
  with_attachments (plain "9" "u2" "Bob" "yes") [reply_to "7"].

Definition page7 : list Message :=
  [plain "8" "u3" "Carol" "hm"; plain "7" "u1" "Alice" "original"].

(** A message whose reply attachment names the message itself, and a
    page that holds that message. *)
Definition reply9self : Message :=
  with_attachments (plain "9" "u2" "Bob" "yes") [reply_to "9"].

Definition page9 : list Message :=
  [plain "9" "u2" "Bob" "yes"; plain "8" "u3" "Carol" "hm"].

Definition page (ms : list Message) : option Response :=
  Some {| statusCode := 200; body := Messages ms |}.

(** Scenario A: a mention of Alice. *)
Definition mention5 : Message := plain "5" "u2" "Bob" "@Alice lol".

Definition window3 : list Message := [plain "3" "u1" "Alice B" "hi"].

(** Whether a delivery request was accepted: a response came and its
    status is below 300. *)
Definition accepted (outcome : option Response) : bool :=
  match outcome with
  | Some response => (statusCode response <? 300)%Z
  | None => false
  end.

(** The objects [handleGroupMeWebhook] returns. *)
Definition ignoredResult : WebhookResult :=
  {| success := true; ignored := Some true; type := None; hasReply := None |}.

Definition reactionResult (success : bool) : WebhookResult :=
  {| success := success; ignored := None;
     type := Some (lit "reaction"); hasReply := None |}.

Definition messageResult (success hasReply : bool) : WebhookResult :=
  {| success := success; ignored := None;
     type := Some (lit "message"); hasReply := Some hasReply |}.

(** A bot's message that carries a reply attachment, a reactor and a
    text. *)
Definition botPayload : Message :=
  from_bot (with_reactors reply9 [{| emoji := Some thumbs_up;
                                     nickname := Some (lit "Dan");
                                     image_url := None |}]).

(** Scenario C: one reactor, with a thumbs-up, on a long message. *)
Definition thumbReactor : Reactor :=
  {| emoji := Some thumbs_up; nickname := None; image_url := None |}.

Definition longText : jsstring := repeat 97%N 120.

Definition reacted : Message :=
  with_reactors (with_text (plain "4" "u1" "Alice" "") (Some longText))
                [thumbReactor].

(** A message whose text is the empty string. *)
Definition emptyText : Message :=
  with_text (plain "4" "u1" "Alice" "") (Some []).

(** A reactor entry with no member at all. *)
Definition bareReactor : Reactor :=
  {| emoji := None; nickname := None; image_url := None |}.

(** The history of a group, oldest first, that ends with the mention of
    Scenario A. *)
Definition chatLog : list Message :=
  [plain "3" "u1" "Alice B" "hi"; plain "4" "u3" "Carol" "hm"; mention5].

(** A message whose identifier is the empty string, last in the history
    of its group. *)
Definition unnamed5 : Message := plain "" "u2" "Bob" "@Alice lol".

Definition unnamedLog : list Message :=
  [plain "3" "u1" "Alice B" "hi"; unnamed5].

(* ------------------------------------------------------------------ *)
(** ** Vocabulary for the patterns, the payloads and the handler *)

(** [before] is empty or ends with a line terminator: what follows it
    starts a line. *)
Definition starts_line (before : jsstring) : Prop :=
  before = [] \/
  exists b c, before = b ++ [c] /\ is_line_terminator c = true.

(** [after] is empty or starts with a line terminator: what precedes it
    ends a line. *)
Definition ends_line (after : jsstring) : Prop :=
  match after with
  | [] => True
  | c :: _ => is_line_terminator c = true
  end.

Definition all_spaces (s : jsstring) : Prop :=
  Forall (fun c => is_space c = true) s.

(** A non-empty run of characters with no line terminator: what [(.+)]
    captures. *)
Definition one_line (s : jsstring) : Prop :=
  s <> [] /\ Forall (fun c => is_line_terminator c = false) s.

(** A history request for a group, with the token of the environment. *)
Definition history_fetch_for (env : Env) (groupId : jsstring) (req : Request)
  : Prop :=
  exists limit before_id,
    req = GetMessages groupId (GROUPME_ACCESS_TOKEN env) limit before_id.

(** The history service never answers 200 with a body that has no
    [messages]. *)
Definition serves_arrays {net : Network} : Prop :=
  forall w req response w',
    respond w req = (Some response, w') ->
    statusCode response = 200%Z ->
    body response <> NoMessages.

(** An image attachment, and an attachment of an unknown type. *)
Definition image_at (u : string) : Attachment :=
  {| att_type := lit "image"; url := Some (lit u);
     reply_id := None; base_reply_id := None |}.

Definition location_at : Attachment :=
  {| att_type := lit "location"; url := None;
     reply_id := None; base_reply_id := None |}.

(** An environment with no webhook address. *)
Definition addressless : Env :=
  {| DISCORD_WEBHOOK_URL := None;
     GROUPME_BOT_ID := Some (lit "b1");
     GROUPME_ACCESS_TOKEN := Some (lit "tok") |}.

(** A quoting message and a window that holds the quoted text. *)
Definition quote6 : Message :=
  {| id := lit "6"; group_id := lit "g"; user_id := lit "u2";
     name := Some (lit "Bob");
     text := Some (lit "> See You" ++ newline ++ lit "ok");
     avatar_url := None; sender_type := Some (lit "user");
     attachments := Some []; favorited_by := Some [] |}.

Definition window6 : list Message :=
  [plain "5" "u2" "Bob" "see you"; plain "4" "u1" "Alice" "See you later"].

(* ================================================================== *)
(** * The rest of the file: the GroupMe side and the HTTP server *)

(** A member that may be missing, null or a string.  In a template
    literal it reads [undefined], [null] or the string. *)
Inductive Member :=
| Missing
| Null
| Text (s : jsstring).

Definition in_template (m : Member) : jsstring :=
  match m with
  | Missing => lit "undefined"
  | Null => lit "null"
  | Text s => s
  end.

(** [data.author] of a body posted to [/discord]: such a member, or an
    object, of which the source reads [bot]. *)
Inductive Author :=
| AuthorMember (m : Member)
| AuthorObject (bot : bool).

(** A body posted to [/discord], through the members the source reads. *)
Record DiscordMessage := {
  webhook_id : option jsstring;
  author : Author;
  discord_content : Member
}.

(** [${message.author}] *)
Definition author_in_template (a : Author) : jsstring :=
  match a with
  | AuthorMember m => in_template m
  | AuthorObject _ => lit "[object Object]"
  end.

(** [data.webhook_id || (data.author && data.author.bot)], as a
    condition (lines 429 and 753). *)
Definition from_webhook_or_bot (data : DiscordMessage) : bool :=
  truthy (webhook_id data) ||
  match author data with
  | AuthorObject bot => bot
  | AuthorMember _ => false
  end.

(** The requests to the GroupMe API other than the history request. *)
Inductive GroupMeCall :=
| GetMessage (groupId messageId : jsstring) (token : option jsstring)
    (** GET /v3/groups/<groupId>/messages/<messageId>?token=<token> *)
| PostBot (bot_id : option jsstring) (text : jsstring).
    (** POST /v3/bots/post of [{ bot_id, text }] *)

(** The body of a response to [GetMessage], seen through
    [JSON.parse(response.body)] and [data.response.message]. *)
Inductive MessageBody :=
| MalformedMessage
    (** [JSON.parse] throws, or [data.response] is undefined or null *)
| MessageMember (m : option Message).
    (** [data.response.message]; [None] when it is undefined or null *)

Record GroupMeResponse := {
  gm_statusCode : Z;
  gm_body : MessageBody
}.

(** The network answers those requests too. *)
Class GroupMeApi (net : Network) := {
  respond_groupme : World -> GroupMeCall -> option GroupMeResponse * World
}.

(** The body of a request to the server, seen through
    [JSON.parse(body)]: it does not parse, it parses to null, or it
    parses to a value read as a GroupMe payload by [/groupme] and as a
    Discord message by [/discord]. *)
Inductive RequestBody :=
| Unparseable
| NullBody
| ObjectBody (as_groupme : Message) (as_discord : DiscordMessage).

Record IncomingRequest := {
  method : jsstring;
  parsedUrl_pathname : jsstring;
  request_body : RequestBody
}.

(** What the server writes with [res.end]; headers are not modelled. *)
Inductive ResponseBody :=
| NoBody
| HomePage
| Json (result : WebhookResult)
| ErrorJson (error : jsstring).

Record ServerResponse := {
  status : Z;
  response_body : ResponseBody
}.

(** [{ success }] *)
Definition successResult (success : bool) : WebhookResult :=
  {| success := success; ignored := None; type := None; hasReply := None |}.

Section Server.
Context {net : Network} {api : GroupMeApi net} {rt : Runtime} (env : Env).

(** The state of the bridge and the list of the other requests made to
    GroupMe. *)
Record ServerState := {
  bridge : State;
  groupme_calls : list GroupMeCall
}.

Definition S (A : Type) := ServerState -> Completion A * ServerState.

#[global] Instance S_Monad : Monad S := {
  ret := fun A a st => (Returned a, st);
  bind := fun A B c k st =>
    match c st with
    | (Returned a, st') => k a st'
    | (Threw e, st') => (Threw e, st')
    end
}.

Definition throw_S {A} (e : Exn) : S A := fun st => (Threw e, st).

Definition try_catch_S {A} (c : S A) (h : Exn -> S A) : S A :=
  fun st =>
    match c st with
    | (Returned a, st') => (Returned a, st')
    | (Threw e, st') => h e st'
    end.

(** A computation of the bridge, run by the server. *)
Definition on_bridge {A} (c : M A) : S A :=
  fun st =>
    let (r, b) := c (bridge st) in
    (r, {| bridge := b; groupme_calls := groupme_calls st |}).

(** [makeRequest(options, data)] for the other GroupMe requests. *)
Definition makeGroupMeRequest (call : GroupMeCall) : S GroupMeResponse :=
  fun st =>
    let (r, w) := respond_groupme (world (bridge st)) call in
    (match r with
     | Some response => Returned response
     | None => Threw RequestError
     end,
     {| bridge := {| world := w; trace := trace (bridge st) |};
        groupme_calls := groupme_calls st ++ [call] |}).

(** The state after one such request. *)
Definition after_call (st : ServerState) (call : GroupMeCall) : ServerState :=
  {| bridge := {| world := snd (respond_groupme (world (bridge st)) call);
                  trace := trace (bridge st) |};
     groupme_calls := groupme_calls st ++ [call] |}.

(** [getGroupMeMessage(groupId, messageId)] (lines 34-57); the result
    [None] is null or undefined. *)
Definition getGroupMeMessage (groupId messageId : jsstring)
  : S (option Message) :=
  try_catch_S
    (response <- makeGroupMeRequest
                   (GetMessage groupId messageId (GROUPME_ACCESS_TOKEN env)) ;;
     if (gm_statusCode response =? 200)%Z then
       match gm_body response with
       | MalformedMessage => throw_S SyntaxError
       | MessageMember m => ret m
       end
     else ret None)
    (fun error => ret None).

(** [sendToGroupMe(message)] (lines 281-307) *)
Definition sendToGroupMe (message : DiscordMessage) : S bool :=
  let text := author_in_template (author message) ++ lit ": " ++
              in_template (discord_content message) in
  try_catch_S
    (response <- makeGroupMeRequest (PostBot (GROUPME_BOT_ID env) text) ;;
     ret (gm_statusCode response <? 300)%Z)
    (fun error => ret false).

Definition notFound : ServerResponse :=
  {| status := 404; response_body := ErrorJson (lit "Not found") |}.

Definition internalError : ServerResponse :=
  {| status := 500; response_body := ErrorJson (lit "Internal server error") |}.

(** The request listener of [http.createServer] (lines 362-454), from
    the request, with its body read, to the response written. *)
Definition server (req : IncomingRequest) : S ServerResponse :=
  if str_eqb (method req) (lit "OPTIONS") then
    ret {| status := 200; response_body := NoBody |}
  else if str_eqb (method req) (lit "GET") && str_eqb (parsedUrl_pathname req) (lit "/")
  then ret {| status := 200; response_body := HomePage |}
  else if str_eqb (method req) (lit "POST") then
    try_catch_S
      (match request_body req with
       | Unparseable => throw_S SyntaxError
       | data =>
           if str_eqb (parsedUrl_pathname req) (lit "/groupme") then
             match data with
             | ObjectBody data _ =>
                 result <- on_bridge (handleGroupMeWebhook env data) ;;
                 ret {| status := if success result then 200 else 500;
                        response_body := Json result |}
             | _ => throw_S TypeError
             end
           else if str_eqb (parsedUrl_pathname req) (lit "/discord") then
             match data with
             | ObjectBody _ data =>
                 if from_webhook_or_bot data then
                   ret {| status := 200; response_body := Json ignoredResult |}
                 else
                   success <- sendToGroupMe data ;;
                   ret {| status := if success then 200 else 500;
                          response_body := Json (successResult success) |}
             | _ => throw_S TypeError
             end
           else ret notFound
       end)
      (fun error => ret internalError)
  else ret notFound.
End Server.

(** A GroupMe API that accepts every post and knows no message. *)
Definition acceptingApi (net : Network) : GroupMeApi net :=
  {| respond_groupme := fun w call =>
       (Some {| gm_statusCode := match call with
                                 | GetMessage _ _ _ => 404
                                 | PostBot _ _ => 202
                                 end;
                gm_body := MalformedMessage |}, w) |}.

Definition serving {net : Network} (w : World) : ServerState :=
  {| bridge := start w; groupme_calls := [] |}.

(** Bodies posted to [/discord]: by a user through a custom sender, by a
    bot as Discord describes its messages, and by a user as Discord
    describes them. *)
Definition fromUser : DiscordMessage :=
  {| webhook_id := None; author := AuthorMember (Text (lit "Dan"));
     discord_content := Text (lit "hello") |}.



Definition post (path : string) (b : RequestBody) : IncomingRequest :=
  {| method := lit "POST"; parsedUrl_pathname := lit path; request_body := b |}.


(* ================================================================== *)
(** * The earlier version of the file

    The source file carries, after the version above, the version
    without reply context (lines 475-795).  Its [makeRequest],
    [convertReactionEmoji] and [sendReactionToDiscord] are the same text
    as above; [sendToDiscord] and [handleGroupMeWebhook] differ. *)

Module Earlier.
Section Bridge.
Context {net : Network} (env : Env).

(** The payload of [sendToDiscord(message)] (lines 552-567). *)
Definition messagePayload (message : Message) : DiscordPayload :=
  {| username := or_else (name message) (lit "GroupMe User");
     content := or_else (text message) (lit "[No text content]");
     payload_avatar_url := avatar_url message;
     embeds :=
       match attachments message with
       | Some (a :: atts) =>
           match filter is_image (a :: atts) with
           | [] => None
           | images => Some (map url images)
           end
       | _ => None
       end |}.

(** [sendToDiscord(message)] (lines 552-589) *)
Definition sendToDiscord (message : Message) : M bool :=
  match DISCORD_WEBHOOK_URL env with
  | None => throw TypeError
  | Some webhookUrl =>
      try_catch
        (response <- makeRequest
           (PostWebhook webhookUrl (messagePayload message)) ;;
         ret (statusCode response <? 300)%Z)
        (fun error => ret false)
  end.

(** [handleGroupMeWebhook(data)] (lines 662-691) *)
Definition handleGroupMeWebhook (data : Message) : M WebhookResult :=
  if opt_is (sender_type data) (lit "bot") then
    ret {| success := true; ignored := Some true;
           type := None; hasReply := None |}
  else
    match latestReaction data with
    | Some latestReaction =>
        let reactionData :=
          {| rd_favorited_by := latestReaction;
             rd_message_id := id data;
             rd_group_id := group_id data |} in
        success <- sendReactionToDiscord env reactionData data ;;
        ret {| success := success; ignored := None;
               type := Some (lit "reaction"); hasReply := None |}
    | None =>
        success <- sendToDiscord data ;;
        ret {| success := success; ignored := None;
               type := Some (lit "message"); hasReply := None |}
    end.
End Bridge.
End Earlier.

(** A report without its [hasReply] member. *)
Definition without_hasReply (r : WebhookResult) : WebhookResult :=
  {| success := success r; ignored := ignored r; type := type r;
     hasReply := None |}.

(* ================================================================== *)
(** * Strings and lists *)

Lemma str_eqb_eq (a b : jsstring) : str_eqb a b = true <-> a = b.
Proof.
  revert b; induction a as [|x a IH]; intros [|y b]; simpl;
    try (split; [discriminate | intros H; inversion H]); try tauto.
  rewrite andb_true_iff, N.eqb_eq, IH.
  split; [intros [-> ->]; reflexivity | intros H; inversion H; auto].
Qed.

Lemma str_eqb_neq (a b : jsstring) : str_eqb a b = false <-> a <> b.
Proof.
  destruct (str_eqb a b) eqn:E.
  - apply str_eqb_eq in E. split; [discriminate | congruence].
  - split; [|reflexivity]. intros _ H. apply str_eqb_eq in H. congruence.
Qed.

Lemma opt_is_eq (x : option jsstring) (s : jsstring) :
  opt_is x s = true <-> x = Some s.
Proof.
  destruct x as [v|]; simpl.
  - rewrite str_eqb_eq. split; [intros ->; reflexivity | congruence].
  - split; discriminate.
Qed.

Lemma replied_to_targeted (att : Attachment) (e : Message) :
  replied_to att e = true <-> targeted_by att e.
Proof.
  unfold replied_to, targeted_by.
  rewrite orb_true_iff, !opt_is_eq. tauto.
Qed.

Lemma find_first_such {A} (p : A -> bool) (P : A -> Prop) (l : list A) :
  (forall x, p x = true <-> P x) ->
  first_such P l (find p l).
Proof.
  intros HP. induction l as [|a l IH]; simpl.
  - intros x [].
  - destruct (p a) eqn:Ea.
    + exists [], l. repeat split; [apply HP, Ea | intros x []].
    + assert (Hna : ~ P a) by (intros H; apply HP in H; congruence).
      destruct (find p l) as [e|]; simpl in *.
      * destruct IH as (before & after & -> & He & Hb).
        exists (a :: before), after. repeat split; auto.
        intros x [<- | Hx]; auto.
      * intros x [<- | Hx]; auto.
Qed.

(* ================================================================== *)
(** * History fetch *)

Section HistoryFetch.
Context {net : Network} (env : Env).

(** What [getGroupMeMessages] does, by the outcome of its request. *)
Lemma getGroupMeMessages_run groupId beforeId limit st :
  let req := GetMessages groupId (GROUPME_ACCESS_TOKEN env) limit
                         (if truthy beforeId then beforeId else None) in
  getGroupMeMessages env groupId beforeId limit st =
  (Returned
     match fst (respond (world st) req) with
     | Some response =>
         if (statusCode response =? 200)%Z then
           match body response with
           | Malformed => Some []
           | NoMessages => None
           | Messages ms => Some ms
           end
         else Some []
     | None => Some []
     end,
   {| world := snd (respond (world st) req); trace := trace st ++ [req] |}).
Proof.
  intros req. unfold getGroupMeMessages, try_catch, makeRequest. simpl.
  fold req. destruct (respond (world st) req) as [[response|] w]; simpl.
  - destruct (statusCode response =? 200)%Z; [|reflexivity].
    destruct (body response); reflexivity.
  - reflexivity.
Qed.

Lemma failure_not_200 (response : Response) :
  success_status (statusCode response) = false ->
  (statusCode response =? 200)%Z = false.
Proof.
  intros H. destruct (statusCode response =? 200)%Z eqn:E; [|reflexivity].
  apply Z.eqb_eq in E. rewrite E in H. discriminate.
Qed.

(** C6.  Whatever the group, the cursor and the limit,
    [getGroupMeMessages] completes normally, never by a throw; and when
    its request fails, by a transport error or by a response whose
    status is not a success, it returns the empty sequence, the same in
    both cases. *)
Theorem getGroupMeMessages_fails_soft groupId beforeId limit st :
  (exists window st',
      getGroupMeMessages env groupId beforeId limit st =
      (Returned window, st')) /\
  (history_failure
     (fst (respond (world st)
                   (GetMessages groupId (GROUPME_ACCESS_TOKEN env) limit
                                (if truthy beforeId then beforeId else None)))) ->
   fst (getGroupMeMessages env groupId beforeId limit st) =
   Returned (Some [])).
Proof.
  rewrite getGroupMeMessages_run. split.
  - eexists. eexists. reflexivity.
  - simpl. destruct (fst (respond _ _)) as [response|]; simpl; auto.
    intros H. rewrite (failure_not_200 _ H). reflexivity.
Qed.
End HistoryFetch.

Lemma getGroupMeMessages_fails_soft_witness :
  let st := @start scripted [Some {| statusCode := 503; body := NoMessages |}] in
  let req := GetMessages (lit "g") (Some (lit "tok")) 20 (Some (lit "5")) in
  history_failure (fst (@respond scripted (world st) req)) /\
  fst (@getGroupMeMessages scripted configured (lit "g") (Some (lit "5")) 20 st) =
  Returned (Some []).
Proof.
  split.
  - reflexivity.
  - apply (@getGroupMeMessages_fails_soft scripted configured). reflexivity.
Defined.

(* ================================================================== *)
(** * Structured reply resolution *)

Section StructuredReply.
Context {net : Network} (env : Env).

Lemma find_is_reply_none (atts : list Attachment) :
  (forall att, In att atts -> is_reply att = false) ->
  find is_reply atts = None.
Proof.
  intros H. destruct (find is_reply atts) as [att|] eqn:E; [|reflexivity].
  apply find_some in E. destruct E as [Hin Hp].
  rewrite (H _ Hin) in Hp. discriminate.
Qed.

Lemma find_is_reply_first (atts : list Attachment) (att : Attachment) :
  first_such (fun a => is_reply a = true) atts (Some att) ->
  find is_reply atts = Some att.
Proof.
  intros (before & after & -> & Hp & Hb).
  induction before as [|a before IH]; simpl.
  - rewrite Hp. reflexivity.
  - destruct (is_reply a) eqn:Ea.
    + exfalso. apply (Hb a); [left; reflexivity | exact Ea].
    + apply IH. intros x Hx. apply Hb. right. exact Hx.
Qed.

(** [findReplyContext] on a message whose first reply attachment is
    [replyAttachment]. *)
Lemma findReplyContext_run message atts replyAttachment st :
  attachments message = Some atts ->
  find is_reply atts = Some replyAttachment ->
  findReplyContext env message st =
  (messages <- getGroupMeMessages env (group_id message)
                                  (Some (id message)) 50 ;;
   lift (js_find messages (replied_to replyAttachment))) st.
Proof.
  intros Ha Hf. unfold findReplyContext. rewrite Ha.
  destruct atts as [|a atts]; [discriminate|].
  rewrite Hf. reflexivity.
Qed.

(** When the fetch gives undefined (a 200 whose body has no
    [messages]), [messages.find] throws. *)
Lemma findReplyContext_undefined_window message atts replyAttachment st :
  attachments message = Some atts ->
  find is_reply atts = Some replyAttachment ->
  fst (getGroupMeMessages env (group_id message) (Some (id message)) 50 st) =
  Returned None ->
  fst (findReplyContext env message st) = Threw TypeError.
Proof.
  intros Ha Hf Hw. rewrite (findReplyContext_run _ st Ha Hf). simpl.
  destruct (getGroupMeMessages env (group_id message) (Some (id message)) 50 st)
    as [[window|e] st'] eqn:E; simpl in Hw; [|discriminate].
  injection Hw as ->. reflexivity.
Qed.

(** C1.  A message without attachments, or with no attachment of type
    reply, resolves to absent and the state, with the list of requests
    made, is untouched.  Otherwise [findReplyContext] is the history
    fetch for the message's group with [beforeId = message.id] and
    [limit = 50], followed by the search: exactly that one request is
    added, and when the fetch returns a window the result is the first
    entry of the window, in its order, whose identifier is the
    [reply_id] or the [base_reply_id] of the (first) reply attachment,
    and absent when the window has no such entry. *)
Theorem findReplyContext_contract message st :
  ((attachments message = None \/
    exists atts, attachments message = Some atts /\
                 forall att, In att atts -> is_reply att = false) ->
   findReplyContext env message st = (Returned None, st)) /\
  (forall atts replyAttachment,
      attachments message = Some atts ->
      first_such (fun att => is_reply att = true) atts (Some replyAttachment) ->
      let fetch := getGroupMeMessages env (group_id message)
                                      (Some (id message)) 50 in
      findReplyContext env message st =
      (messages <- fetch ;;
       lift (js_find messages (replied_to replyAttachment))) st /\
      trace (snd (findReplyContext env message st)) =
      trace st ++ [history_request env (group_id message) (id message) 50] /\
      forall window,
        fst (fetch st) = Returned (Some window) ->
        exists r,
          fst (findReplyContext env message st) = Returned r /\
          first_such (targeted_by replyAttachment) window r).
Proof.
  split.
  - intros [Hnone | (atts & Ha & Hno)]; unfold findReplyContext.
    + rewrite Hnone. reflexivity.
    + rewrite Ha. destruct atts as [|a atts]; [reflexivity|].
      rewrite (find_is_reply_none _ Hno). reflexivity.
  - intros atts replyAttachment Ha Hfirst fetch.
    apply find_is_reply_first in Hfirst.
    rewrite (findReplyContext_run _ st Ha Hfirst). fold fetch.
    split; [reflexivity|].
    unfold fetch. simpl. rewrite getGroupMeMessages_run. simpl.
    split.
    + reflexivity.
    + intros window Hw. injection Hw as Hw. rewrite Hw. simpl.
      eexists. split; [reflexivity|].
      apply find_first_such. intros x. apply replied_to_targeted.
Qed.
End StructuredReply.

Lemma findReplyContext_contract_witness :
  let st := @start scripted [page page7] in
  (attachments reply9 = Some [reply_to "7"] /\
   first_such (fun att => is_reply att = true) [reply_to "7"]
              (Some (reply_to "7")) /\
   fst (@getGroupMeMessages scripted configured (group_id reply9)
                            (Some (id reply9)) 50 st) =
   Returned (Some page7)) /\
  (exists r,
      fst (@findReplyContext scripted configured reply9 st) = Returned r /\
      first_such (targeted_by (reply_to "7")) page7 r) /\
  @findReplyContext scripted configured mention5 st = (Returned None, st).
Proof.
  intros st.
  assert (Hfirst : first_such (fun att => is_reply att = true) [reply_to "7"]
                              (Some (reply_to "7"))).
  { exists [], []. repeat split. intros x []. }
  split; [repeat split; [exact Hfirst] | split].
  - destruct (@findReplyContext_contract scripted configured reply9 st)
      as [_ H].
    destruct (H [reply_to "7"] (reply_to "7") eq_refl Hfirst) as (_ & _ & Hw).
    apply Hw. reflexivity.
  - apply (@findReplyContext_contract scripted configured mention5 st).
    right. exists []. split; [reflexivity | intros att []].
Defined.

(* ================================================================== *)
(** * Substrings and the mention pattern *)

Lemma starts_with_prefix (needle hay : jsstring) :
  starts_with needle hay = true <-> exists after, hay = needle ++ after.
Proof.
  revert hay; induction needle as [|x needle IH]; intros hay; simpl.
  - split; [intros _; exists hay; reflexivity | reflexivity].
  - destruct hay as [|y hay].
    + split; [discriminate | intros [after H]; discriminate].
    + rewrite andb_true_iff, N.eqb_eq, IH. split.
      * intros [-> [after ->]]. exists after. reflexivity.
      * intros [after H]. injection H as -> ->. split; eauto.
Qed.

Lemma includes_unfold (hay needle : jsstring) :
  includes hay needle =
  starts_with needle hay ||
  match hay with
  | [] => false
  | _ :: hay' => includes hay' needle
  end.
Proof. destruct hay; reflexivity. Qed.

Lemma includes_substring (hay needle : jsstring) :
  includes hay needle = true <-> substring_of needle hay.
Proof.
  unfold substring_of. split.
  - induction hay as [|a hay IH]; rewrite includes_unfold, orb_true_iff.
    + intros [H | H]; [|discriminate].
      apply starts_with_prefix in H. destruct H as [after ->].
      exists [], after. reflexivity.
    + intros [H | H].
      * apply starts_with_prefix in H. destruct H as [after ->].
        exists [], after. reflexivity.
      * destruct (IH H) as (before & after & ->).
        exists (a :: before), after. reflexivity.
  - intros (before & after & ->).
    induction before as [|a before IH]; rewrite includes_unfold, orb_true_iff.
    + left. apply starts_with_prefix. exists after. reflexivity.
    + right. exact IH.
Qed.

Lemma take_while_split (p : N -> bool) (s : jsstring) :
  exists after,
    s = take_while p s ++ after /\
    Forall (fun c => p c = true) (take_while p s) /\
    match after with
    | c :: _ => p c = false
    | [] => True
    end.
Proof.
  induction s as [|c s (after & Hs & Hall & Hafter)]; simpl.
  - exists []. repeat split. constructor.
  - destruct (p c) eqn:Ec.
    + exists after. repeat split; auto.
      simpl. f_equal. exact Hs.
    + exists (c :: s). repeat split; auto.
Qed.

Lemma take_while_nil_head (p : N -> bool) (c : N) (s : jsstring) :
  take_while p (c :: s) = [] -> p c = false.
Proof. simpl. destruct (p c); [discriminate | reflexivity]. Qed.

Lemma at_sign_not_word : is_word at_sign = false.
Proof. reflexivity. Qed.

Lemma no_mention_cons (c : N) (s : jsstring) :
  (c = at_sign -> match s with x :: _ => is_word x = false | [] => True end) ->
  no_mention s ->
  no_mention (c :: s).
Proof.
  intros Hc Hs before x after E.
  destruct before as [|b before]; simpl in E.
  - injection E as -> ->. apply Hc. reflexivity.
  - injection E as _ E. exact (Hs _ _ _ E).
Qed.

Lemma no_mention_nil : no_mention [].
Proof. intros [|b before] x after E; discriminate. Qed.

(** The mention pattern finds the first [@word] token. *)
Lemma mentionPattern_first (text token : jsstring) :
  mentionPattern text = Some token -> first_mention text token.
Proof.
  revert token; induction text as [|c rest IH]; intros token; simpl;
    [discriminate|].
  destruct (N.eqb c at_sign) eqn:Ec.
  - apply N.eqb_eq in Ec. subst c.
    destruct (take_while is_word rest) as [|w ws] eqn:Ew.
    + intros H. destruct (IH _ H) as (before & after & -> & Hne & Hall & Ha & Hno).
      exists (at_sign :: before), after. repeat split; auto.
      simpl. apply no_mention_cons; [|exact Hno].
      intros _. destruct before as [|b before]; simpl in *.
      * apply at_sign_not_word.
      * apply (take_while_nil_head _ _ _ Ew).
    + intros H. injection H as <-.
      destruct (take_while_split is_word rest) as (after & Hs & Hall & Ha).
      rewrite Ew in Hs, Hall.
      exists [], after. repeat split; auto.
      * simpl. f_equal. exact Hs.
      * discriminate.
      * simpl. apply no_mention_cons; [intros _; exact I | apply no_mention_nil].
  - intros H. destruct (IH _ H) as (before & after & -> & Hne & Hall & Ha & Hno).
    exists (c :: before), after. repeat split; auto.
    simpl. apply no_mention_cons; [|exact Hno].
    intros ->. discriminate.
Qed.

(** Without a match the text has no [@word] token at all. *)
Lemma mentionPattern_none (text : jsstring) :
  mentionPattern text = None -> no_mention text.
Proof.
  induction text as [|c rest IH]; simpl; [intros _; apply no_mention_nil|].
  destruct (N.eqb c at_sign) eqn:Ec.
  - destruct (take_while is_word rest) as [|w ws] eqn:Ew; [|discriminate].
    intros H. apply no_mention_cons; [|exact (IH H)].
    intros _. destruct rest as [|x rest]; [exact I|].
    apply (take_while_nil_head _ _ _ Ew).
  - intros H. apply no_mention_cons; [|exact (IH H)].
    intros ->. discriminate.
Qed.

(* ================================================================== *)
(** * Heuristic reply detection *)

Section Heuristic.
Context {rt : Runtime}.

Lemma lowered_includes (x : option jsstring) (needle : jsstring) :
  match x with
  | Some (c :: s) => includes (toLowerCase (c :: s)) needle
  | _ => false
  end = true <->
  exists v, x = Some v /\ v <> [] /\ substring_of needle (toLowerCase v).
Proof.
  destruct x as [[|c s]|].
  - split; [discriminate | intros (v & E & Hne & _); congruence].
  - rewrite includes_substring. split.
    + intros H. exists (c :: s). repeat split; [discriminate | exact H].
    + intros (v & E & _ & H). injection E as <-. exact H.
  - split; [discriminate | intros (v & E & _); discriminate].
Qed.

Lemma mentions_spec (token : jsstring) (message e : Message) :
  mentions token message e = true <->
  named_like token e /\ other_than message e.
Proof.
  unfold mentions, named_like, other_than.
  rewrite !andb_true_iff, !negb_true_iff, !str_eqb_neq, lowered_includes.
  tauto.
Qed.

Lemma quotes_spec (fragment : jsstring) (message e : Message) :
  quotes fragment message e = true <->
  text_like fragment e /\ other_than message e.
Proof.
  unfold quotes, text_like, other_than.
  rewrite !andb_true_iff, !negb_true_iff, !str_eqb_neq, lowered_includes.
  tauto.
Qed.

(** The loop over the patterns, on a window. *)
Lemma scanPatterns_window patterns message text window :
  scanPatterns patterns message text (Some window) =
  Returned (first_of (map (fun pattern => patternScan pattern message text window)
                          patterns)).
Proof.
  induction patterns as [|pattern patterns IH]; simpl; [reflexivity|].
  unfold patternScan at 1.
  destruct (pattern text) as [capture|]; [|exact IH].
  destruct (find _ window); [reflexivity | exact IH].
Qed.

(** [detectReplyFromText] on a message with text and a window. *)
Lemma detectReplyFromText_window message t window :
  text message = Some t -> t <> [] ->
  detectReplyFromText message (Some window) =
  Returned (first_of [ mentionScan message t window;
                       patternScan quotePattern message t window;
                       patternScan colonPattern message t window ]).
Proof.
  intros Ht Hne. unfold detectReplyFromText. rewrite Ht.
  destruct t as [|c s]; [congruence|].
  unfold mentionScan.
  destruct (mentionPattern (c :: s)) as [token|]; simpl.
  - destruct (find _ window); [reflexivity|].
    apply (scanPatterns_window replyPatterns).
  - apply (scanPatterns_window replyPatterns).
Qed.

Lemma scanPatterns_other_than patterns message text recentMessages e :
  scanPatterns patterns message text recentMessages = Returned (Some e) ->
  other_than message e.
Proof.
  induction patterns as [|pattern patterns IH]; simpl; [discriminate|].
  destruct (pattern text) as [capture|]; [|exact IH].
  destruct recentMessages as [window|]; simpl; [|discriminate].
  destruct (find _ window) as [msg|] eqn:E; [|exact IH].
  intros H. injection H as <-.
  apply find_some in E. destruct E as [_ E].
  apply quotes_spec in E. tauto.
Qed.

Lemma detectReplyFromText_other_than message recentMessages e :
  detectReplyFromText message recentMessages = Returned (Some e) ->
  other_than message e.
Proof.
  unfold detectReplyFromText.
  destruct (text message) as [[|c s]|]; try discriminate.
  destruct (mentionPattern (c :: s)) as [token|]; simpl.
  - destruct recentMessages as [window|]; simpl; [|discriminate].
    destruct (find _ window) as [msg|] eqn:E.
    + intros H. injection H as <-.
      apply find_some in E. destruct E as [_ E].
      apply mentions_spec in E. tauto.
    + exact (@scanPatterns_other_than replyPatterns message (c :: s)
                                      (Some window) e).
  - exact (@scanPatterns_other_than replyPatterns message (c :: s)
                                    recentMessages e).
Qed.

(** C7.  On a message with text, and a window, the detector tries the
    mention scan, then the scan of the quote-line pattern, then the
    scan of the name-colon pattern, and returns the first entry one of
    them finds; it returns absent when none finds one.  The mention
    scan takes the first [@word] token of the text, lower-cases it, and
    gives the first entry of the window, in its order, that is not the
    message, is not by its author, and whose display name, lower-cased,
    contains the token as a substring. *)
Theorem detectReplyFromText_pattern_order message t window :
  text message = Some t -> t <> [] ->
  detectReplyFromText message (Some window) =
  Returned (first_of [ mentionScan message t window;
                       patternScan quotePattern message t window;
                       patternScan colonPattern message t window ]) /\
  match mentionPattern t with
  | Some token =>
      first_mention t token /\
      first_such (fun e => named_like (toLowerCase token) e /\
                           other_than message e)
                 window (mentionScan message t window)
  | None => no_mention t /\ mentionScan message t window = None
  end /\
  (mentionScan message t window = None ->
   patternScan quotePattern message t window = None ->
   patternScan colonPattern message t window = None ->
   detectReplyFromText message (Some window) = Returned None).
Proof.
  intros Ht Hne.
  rewrite (detectReplyFromText_window _ window Ht Hne).
  split; [reflexivity | split].
  - unfold mentionScan.
    destruct (mentionPattern t) as [token|] eqn:E.
    + split; [apply mentionPattern_first, E|].
      apply find_first_such. intros e. apply mentions_spec.
    + split; [apply mentionPattern_none, E | reflexivity].
  - intros -> -> ->. reflexivity.
Qed.
End Heuristic.

Lemma detectReplyFromText_pattern_order_witness :
  (text mention5 = Some (lit "@Alice lol") /\ lit "@Alice lol" <> []) /\
  @detectReplyFromText asciiRuntime mention5 (Some window3) =
  Returned (Some (plain "3" "u1" "Alice B" "hi")).
Proof.
  split; [split; [reflexivity | discriminate]|].
  destruct (@detectReplyFromText_pattern_order asciiRuntime mention5
              (lit "@Alice lol") window3 eq_refl) as [H _].
  - discriminate.
  - rewrite H. reflexivity.
Defined.

(* ================================================================== *)
(** * Self-exclusion *)

Section SelfExclusion.
Context {net : Network} {rt : Runtime} (env : Env).

(** C2, as the code has it.  Every entry the heuristic detector
    returns, on every window, differs from the message in identifier
    and in author.  An entry the structured resolution returns is an
    entry of the window fetched before the message, the one its reply
    attachment points to; it differs from the message in identifier
    whenever that window does not hold the message itself, which is
    what the [before_id] cursor asks of the history service. *)
Theorem no_self_reply message :
  (forall recentMessages e,
      detectReplyFromText message recentMessages = Returned (Some e) ->
      id e <> id message /\ user_id e <> user_id message) /\
  (forall st e,
      fst (findReplyContext env message st) = Returned (Some e) ->
      exists atts replyAttachment window,
        attachments message = Some atts /\
        find is_reply atts = Some replyAttachment /\
        fst (getGroupMeMessages env (group_id message)
                                (Some (id message)) 50 st) =
        Returned (Some window) /\
        In e window /\
        targeted_by replyAttachment e /\
        ((forall x, In x window -> id x <> id message) ->
         id e <> id message)).
Proof.
  split.
  - intros recentMessages e H.
    exact (detectReplyFromText_other_than _ _ H).
  - intros st e H.
    destruct (attachments message) as [atts|] eqn:Ha;
      [|unfold findReplyContext in H; rewrite Ha in H; discriminate].
    destruct (find is_reply atts) as [replyAttachment|] eqn:Hf.
    + rewrite (findReplyContext_run env _ st Ha Hf) in H.
      simpl in H. rewrite getGroupMeMessages_run in H.
      exists atts, replyAttachment.
      rewrite getGroupMeMessages_run. simpl in *.
      destruct (match fst (respond _ _) with Some _ => _ | None => _ end)
        as [window|]; simpl in H; [|discriminate].
      exists window. injection H as H.
      apply find_some in H. destruct H as [Hin Hp].
      apply replied_to_targeted in Hp. auto 10.
    + unfold findReplyContext in H. rewrite Ha in H.
      destruct atts as [|a atts]; [discriminate|].
      rewrite Hf in H. discriminate.
Qed.
End SelfExclusion.

(** C2 as stated fails for the structured resolution: on a reply
    attachment that names the message itself and a page that holds the
    message, the message resolves to itself. *)
Lemma self_reply_on_own_identifier :
  ~ (forall e,
        fst (@findReplyContext scripted configured reply9self
                               (@start scripted [page page9])) =
        Returned (Some e) ->
        id e <> id reply9self).
Proof.
  intros H.
  apply (H (plain "9" "u2" "Bob" "yes")); reflexivity.
Qed.

Lemma no_self_reply_witness :
  let e3 := plain "3" "u1" "Alice B" "hi" in
  let e7 := plain "7" "u1" "Alice" "original" in
  let st := @start scripted [page page7] in
  (@detectReplyFromText asciiRuntime mention5 (Some window3) =
   Returned (Some e3) /\
   fst (@findReplyContext scripted configured reply9 st) = Returned (Some e7) /\
   (forall x, In x page7 -> id x <> id reply9)) /\
  (id e3 <> id mention5 /\ user_id e3 <> user_id mention5) /\
  id e7 <> id reply9.
Proof.
  intros e3 e7 st.
  assert (Hpage : forall x, In x page7 -> id x <> id reply9).
  { intros x [<- | [<- | []]]; compute; discriminate. }
  split; [repeat split; exact Hpage|].
  destruct (@no_self_reply scripted asciiRuntime configured mention5) as [H _].
  destruct (@no_self_reply scripted asciiRuntime configured reply9) as [_ H'].
  split.
  - apply (H (Some window3) e3). reflexivity.
  - destruct (H' st e7 eq_refl) as (atts & att & window & _ & _ & Hw & _ & _ & Himp).
    apply Himp. vm_compute in Hw. injection Hw as <-. exact Hpage.
Defined.

(* ================================================================== *)
(** * The webhook handler *)

Section Handler.
Context {net : Network} {rt : Runtime} (env : Env).

Lemma sendToDiscord_run message replyContext webhookUrl st :
  DISCORD_WEBHOOK_URL env = Some webhookUrl ->
  let req := PostWebhook webhookUrl (messagePayload message replyContext) in
  sendToDiscord env message replyContext st =
  (Returned (accepted (fst (respond (world st) req))),
   {| world := snd (respond (world st) req); trace := trace st ++ [req] |}).
Proof.
  intros Hu req. unfold sendToDiscord, try_catch, makeRequest.
  rewrite Hu. simpl. fold req.
  destruct (respond (world st) req) as [[response|] w]; reflexivity.
Qed.

Lemma sendReactionToDiscord_run reactionData originalMessage webhookUrl st :
  DISCORD_WEBHOOK_URL env = Some webhookUrl ->
  let req := PostWebhook webhookUrl
                         (reactionPayload reactionData originalMessage) in
  sendReactionToDiscord env reactionData originalMessage st =
  (Returned (accepted (fst (respond (world st) req))),
   {| world := snd (respond (world st) req); trace := trace st ++ [req] |}).
Proof.
  intros Hu req. unfold sendReactionToDiscord, try_catch, makeRequest.
  rewrite Hu. simpl. fold req.
  destruct (respond (world st) req) as [[response|] w]; reflexivity.
Qed.

Lemma latestReaction_last data reactors :
  favorited_by data = Some reactors -> reactors <> [] ->
  exists latest,
    nth_error reactors (List.length reactors - 1) = Some latest /\
    latestReaction data = Some latest.
Proof.
  intros Hf Hne. unfold latestReaction. rewrite Hf.
  destruct reactors as [|r rs]; [congruence|].
  exists (nth (List.length (r :: rs) - 1) (r :: rs) r).
  split; [|reflexivity].
  apply nth_error_nth'. simpl. lia.
Qed.

Lemma latestReaction_none data :
  favorited_by data = None \/ favorited_by data = Some [] ->
  latestReaction data = None.
Proof. unfold latestReaction. intros [-> | ->]; reflexivity. Qed.

(** C4, as the code has it.  A payload whose sender type is bot is
    answered at once with [{ success: true, ignored: true }]; the state
    is left as it was, so nothing is fetched and nothing is delivered,
    whatever the attachments, the reactors and the text. *)
Theorem bot_short_circuit data st :
  sender_type data = Some (lit "bot") ->
  handleGroupMeWebhook env data st = (Returned ignoredResult, st) /\
  exists added,
    trace (snd (handleGroupMeWebhook env data st)) = trace st ++ added /\
    no_history_fetch added /\ no_delivery added.
Proof.
  intros Hb. unfold handleGroupMeWebhook.
  rewrite (proj2 (opt_is_eq _ _) Hb). split; [reflexivity|].
  exists []. simpl. split; [symmetry; apply app_nil_r|].
  split; [intros g t l b [] | intros to payload []].
Qed.

(** C5.  For a payload that is not a bot's and has no reactor, when the
    access token is not set, the handler is the delivery of the message
    with no reply context followed by the report: no history request is
    made, even with a reply attachment, the only request is the post of
    the message without reply context, and the report has type message
    and [hasReply] false. *)
Theorem tokenless_delivery data st :
  opt_is (sender_type data) (lit "bot") = false ->
  favorited_by data = None \/ favorited_by data = Some [] ->
  truthy (GROUPME_ACCESS_TOKEN env) = false ->
  handleGroupMeWebhook env data st =
  (success <- sendToDiscord env data None ;;
   ret (messageResult success false)) st /\
  (exists added,
      trace (snd (handleGroupMeWebhook env data st)) = trace st ++ added /\
      no_history_fetch added) /\
  (forall webhookUrl,
      DISCORD_WEBHOOK_URL env = Some webhookUrl ->
      exists success st',
        handleGroupMeWebhook env data st =
        (Returned (messageResult success false), st') /\
        trace st' =
        trace st ++ [PostWebhook webhookUrl (messagePayload data None)] /\
        content (messagePayload data None) =
        or_else (text data) (lit "[No text content]")).
Proof.
  intros Hb Hr Ht.
  assert (E : handleGroupMeWebhook env data st =
              (success <- sendToDiscord env data None ;;
               ret (messageResult success false)) st).
  { unfold handleGroupMeWebhook, resolveReplyContext.
    rewrite Hb, (latestReaction_none _ Hr), Ht. reflexivity. }
  split; [exact E | split].
  - rewrite E. simpl.
    destruct (DISCORD_WEBHOOK_URL env) as [webhookUrl|] eqn:Hu.
    + rewrite (sendToDiscord_run _ _ st Hu). simpl.
      eexists. split; [reflexivity|].
      intros g t l b [H | []]. discriminate.
    + unfold sendToDiscord. rewrite Hu. simpl.
      exists []. split; [symmetry; apply app_nil_r | intros g t l b []].
  - intros webhookUrl Hu. rewrite E. simpl.
    rewrite (sendToDiscord_run _ _ st Hu). simpl.
    eexists. eexists. repeat split.
Qed.
End Handler.

(** C4 as stated fails on the report: for a bot's payload the handler
    answers with [success] true, not false. *)
Lemma bot_report_is_success :
  ~ (forall r,
        fst (@handleGroupMeWebhook scripted asciiRuntime configured botPayload
                                   (@start scripted [])) = Returned r ->
        success r = false).
Proof.
  intros H. specialize (H ignoredResult eq_refl). discriminate.
Qed.

Lemma bot_short_circuit_witness :
  let st := @start scripted [page page7] in
  sender_type botPayload = Some (lit "bot") /\
  @handleGroupMeWebhook scripted asciiRuntime configured botPayload st =
  (Returned ignoredResult, st).
Proof.
  intros st. split; [reflexivity|].
  apply (@bot_short_circuit scripted asciiRuntime configured botPayload st).
  reflexivity.
Defined.

Lemma tokenless_delivery_witness :
  let st := @start scripted [Some {| statusCode := 204; body := Malformed |}] in
  (opt_is (sender_type reply9) (lit "bot") = false /\
   (favorited_by reply9 = None \/ favorited_by reply9 = Some []) /\
   truthy (GROUPME_ACCESS_TOKEN tokenless) = false) /\
  exists added,
    trace (snd (@handleGroupMeWebhook scripted asciiRuntime tokenless reply9 st)) =
    trace st ++ added /\
    no_history_fetch added.
Proof.
  intros st. split; [repeat split; right; reflexivity|].
  apply (@tokenless_delivery scripted asciiRuntime tokenless reply9 st).
  - reflexivity.
  - right. reflexivity.
  - reflexivity.
Defined.

(* ================================================================== *)
(** * Reactions *)

Lemma own_property_emojiMap (e v : jsstring) :
  own_property emojiMap e = Some v ->
  v <> [] /\ ((e = bare_heart /\ v = red_heart) \/ v = e).
Proof.
  unfold emojiMap. simpl.
  repeat match goal with
         | |- (if str_eqb e ?k then _ else _) = _ -> _ =>
             destruct (str_eqb e k) eqn:?E;
             [ apply str_eqb_eq in E; subst e; intros H; injection H as <-;
               split; [discriminate | auto]
             | clear E ]
         end.
  discriminate.
Qed.

Lemma own_property_bare_heart :
  own_property emojiMap bare_heart = Some red_heart.
Proof. reflexivity. Qed.

Lemma convertReactionEmoji_not_inherited (e : jsstring) :
  inherited e = false ->
  convertReactionEmoji e =
  VString match own_property emojiMap e with
          | Some v => v
          | None => e
          end.
Proof.
  intros Hi. unfold convertReactionEmoji, get. rewrite Hi.
  destruct (own_property emojiMap e) as [v|] eqn:E; [|reflexivity].
  destruct (own_property_emojiMap _ E) as [Hne _].
  destruct v; [congruence | reflexivity].
Qed.

(** The names of inherited members are made of ASCII letters and
    underscores, so a string with any other code unit, and the empty
    string, is not one of them. *)
Lemma inherited_identifier (e : jsstring) :
  inherited e = true ->
  e <> [] /\ forallb is_identifier_letter e = true.
Proof.
  unfold inherited. rewrite existsb_exists.
  intros (k & Hin & Hk). apply str_eqb_eq in Hk. subst k.
  unfold objectPrototype in Hin. simpl in Hin.
  repeat (destruct Hin as [<- | Hin]; [split; [discriminate | reflexivity]|]).
  destruct Hin.
Qed.

Lemma glyph_not_inherited (e : jsstring) :
  (exists c, In c e /\ is_identifier_letter c = false) ->
  inherited e = false.
Proof.
  intros (c & Hin & Hc). destruct (inherited e) eqn:E; [|reflexivity].
  apply inherited_identifier in E. destruct E as [_ E].
  rewrite forallb_forall in E. rewrite (E _ Hin) in Hc. discriminate.
Qed.

(** On the name of an inherited member the conversion gives the member,
    not the name. *)
Example convertReactionEmoji_constructor :
  convertReactionEmoji (lit "constructor") = VInherited (lit "constructor").
Proof. reflexivity. Qed.

(** C9.  On every input that is not the name of a member objects
    inherit (no glyph is: those names are ASCII identifiers), the
    conversion gives the input back, except on the bare heart U+2764,
    which becomes the heart followed by the variation selector U+FE0F;
    so converting twice is converting once. *)
Theorem convertReactionEmoji_identity (e : jsstring) :
  inherited e = false ->
  (e <> bare_heart -> convertReactionEmoji e = VString e) /\
  (e = bare_heart -> convertReactionEmoji e = VString red_heart) /\
  (exists s, convertReactionEmoji e = VString s /\
             convertReactionEmoji s = VString s).
Proof.
  intros Hi. rewrite (convertReactionEmoji_not_inherited _ Hi).
  destruct (own_property emojiMap e) as [v|] eqn:E.
  - destruct (own_property_emojiMap _ E) as [_ [[-> ->] | ->]].
    + repeat split; try congruence. exists red_heart. split; reflexivity.
    + repeat split; try congruence.
      * intros ->. rewrite own_property_bare_heart in E. discriminate E.
      * exists e. split; [reflexivity|].
        rewrite (convertReactionEmoji_not_inherited _ Hi), E. reflexivity.
  - repeat split.
    + intros ->. rewrite own_property_bare_heart in E. discriminate.
    + exists e. split; [reflexivity|].
      rewrite (convertReactionEmoji_not_inherited _ Hi), E. reflexivity.
Qed.

Lemma convertReactionEmoji_identity_witness :
  inherited thumbs_up = false /\
  convertReactionEmoji thumbs_up = VString thumbs_up /\
  convertReactionEmoji bare_heart = VString red_heart.
Proof.
  split; [reflexivity | split].
  - apply (convertReactionEmoji_identity thumbs_up); [reflexivity | discriminate].
  - apply (convertReactionEmoji_identity bare_heart); reflexivity.
Defined.

Lemma or_else_some (t d : jsstring) : t <> [] -> or_else (Some t) d = t.
Proof. destruct t; [congruence | reflexivity]. Qed.

Lemma or_else_falsy (x : option jsstring) (d : jsstring) :
  truthy x = false -> or_else x d = d.
Proof. destruct x as [[|c s]|]; simpl; congruence. Qed.

Lemma truncated_length (s : jsstring) (n : nat) :
  n < List.length s ->
  List.length (substring0 s n ++ lit "...") = n + 3.
Proof.
  intros H. unfold substring0.
  rewrite length_app, length_firstn. simpl. lia.
Qed.

Section Reactions.
Context {net : Network} {rt : Runtime} (env : Env).

(** C3.  A payload is a reaction event, that is, has a latest
    reaction, exactly when its [favorited_by] is a non-empty sequence.
    For such a payload with [N] reactors the reaction data is built
    from entry [N - 1], whatever [N]; in the notice made from it the
    emoji is the heart when the entry has none and the entry's emoji,
    converted, otherwise, and the name is ['Someone'] when the entry
    has none and the entry's nickname otherwise.  The handler, on a
    payload that is not a bot's, takes the reaction path on that entry
    when there is one, posting the notice and reporting type reaction,
    and the message path when there is none. *)
Theorem reaction_extraction data st :
  (latestReaction data <> None <->
   exists reactors, favorited_by data = Some reactors /\ reactors <> []) /\
  (forall reactors,
      favorited_by data = Some reactors -> reactors <> [] ->
      exists latest,
        nth_error reactors (List.length reactors - 1) = Some latest /\
        latestReaction data = Some latest /\
        let reactionData :=
          {| rd_favorited_by := latest; rd_message_id := id data;
             rd_group_id := group_id data |} in
        content (reactionPayload reactionData data) =
        to_String (reactionEmoji reactionData) ++ lit " **" ++
        reacterName reactionData ++ lit "** reacted to: " ++
        double_quote ++ messagePreview data ++ double_quote /\
        (emoji latest = None -> reactionEmoji reactionData = VString red_heart) /\
        (forall e, emoji latest = Some e -> e <> [] ->
                   reactionEmoji reactionData = convertReactionEmoji e) /\
        (nickname latest = None -> reacterName reactionData = lit "Someone") /\
        (forall n, nickname latest = Some n -> n <> [] ->
                   reacterName reactionData = n) /\
        (opt_is (sender_type data) (lit "bot") = false ->
         handleGroupMeWebhook env data st =
         (success <- sendReactionToDiscord env reactionData data ;;
          ret (reactionResult success)) st /\
         forall webhookUrl,
           DISCORD_WEBHOOK_URL env = Some webhookUrl ->
           exists success st',
             handleGroupMeWebhook env data st =
             (Returned (reactionResult success), st') /\
             trace st' =
             trace st ++
             [PostWebhook webhookUrl (reactionPayload reactionData data)])) /\
  (opt_is (sender_type data) (lit "bot") = false ->
   favorited_by data = None \/ favorited_by data = Some [] ->
   handleGroupMeWebhook env data st =
   (replyContext <- resolveReplyContext env data ;;
    success <- sendToDiscord env data replyContext ;;
    ret (messageResult success match replyContext with
                               | Some _ => true
                               | None => false
                               end)) st).
Proof.
  split; [|split].
  - unfold latestReaction.
    destruct (favorited_by data) as [[|r rs]|]; split;
      try congruence; try discriminate.
    + intros (reactors & E & Hne). congruence.
    + intros _. exists (r :: rs). split; [reflexivity | discriminate].
    + intros (reactors & E & _). discriminate.
  - intros reactors Hf Hne.
    destruct (latestReaction_last _ Hf Hne) as (latest & Hnth & Hl).
    exists latest. split; [exact Hnth | split; [exact Hl|]].
    intros reactionData. split; [reflexivity|].
    unfold reactionEmoji, reacterName. simpl.
    split; [intros ->; reflexivity|].
    split; [intros e -> He; rewrite (or_else_some _ He); reflexivity|].
    split; [intros ->; reflexivity|].
    split; [intros n -> Hn; apply (or_else_some _ Hn)|].
    intros Hb.
    assert (E : handleGroupMeWebhook env data st =
                (success <- sendReactionToDiscord env reactionData data ;;
                 ret (reactionResult success)) st).
    { unfold handleGroupMeWebhook. rewrite Hb, Hl. reflexivity. }
    split; [exact E|].
    intros webhookUrl Hu. rewrite E. simpl.
    rewrite (sendReactionToDiscord_run env _ _ st Hu). simpl.
    eexists. eexists. split; reflexivity.
  - intros Hb Hr. unfold handleGroupMeWebhook.
    rewrite Hb, (latestReaction_none _ Hr). reflexivity.
Qed.
End Reactions.

(** C8, as the code has it.  The preview of the reacted-upon message
    never exceeds 100 code units: a non-empty text of at most 100 is
    previewed unchanged, a longer one as its first 97 code units followed
    by three dots, 100 in all, and a missing or empty text as the
    placeholder; the notice quotes that preview.  A payload whose only
    reactor carries the thumbs-up gives the thumbs-up. *)
Theorem reaction_preview originalMessage :
  List.length (messagePreview originalMessage) <= 100 /\
  (forall t, text originalMessage = Some t -> t <> [] ->
             List.length t <= 100 ->
             messagePreview originalMessage = t) /\
  (forall t, text originalMessage = Some t -> 100 < List.length t ->
             messagePreview originalMessage = firstn 97 t ++ lit "..." /\
             List.length (messagePreview originalMessage) = 100) /\
  (truthy (text originalMessage) = false ->
   messagePreview originalMessage = lit "[No text content]") /\
  (forall reactionData,
      exists before,
        content (reactionPayload reactionData originalMessage) =
        before ++ double_quote ++ messagePreview originalMessage ++ double_quote) /\
  (forall reactor,
      favorited_by originalMessage = Some [reactor] ->
      emoji reactor = Some thumbs_up ->
      latestReaction originalMessage = Some reactor /\
      forall message_id group_id,
        reactionEmoji {| rd_favorited_by := reactor;
                         rd_message_id := message_id;
                         rd_group_id := group_id |} = VString thumbs_up).
Proof.
  unfold messagePreview.
  set (p := or_else (text originalMessage) (lit "[No text content]")).
  split; [|split; [|split; [|split; [|split]]]].
  - destruct (100 <? List.length p) eqn:E.
    + apply Nat.ltb_lt in E. rewrite truncated_length; lia.
    + apply Nat.ltb_ge in E. exact E.
  - intros t Ht Hne Hlen. unfold p. rewrite Ht, (or_else_some _ Hne).
    apply Nat.ltb_ge in Hlen. rewrite Hlen. reflexivity.
  - intros t Ht Hlen. unfold p. rewrite Ht.
    destruct t as [|c s]; [simpl in Hlen; lia|].
    simpl or_else. pose proof Hlen as Hl. apply Nat.ltb_lt in Hl. rewrite Hl.
    split; [reflexivity|]. apply (truncated_length (c :: s)). lia.
  - intros Hf. unfold p. rewrite (or_else_falsy _ _ Hf). reflexivity.
  - intros reactionData. simpl. fold p.
    exists (to_String (reactionEmoji reactionData) ++ lit " **" ++
            reacterName reactionData ++ lit "** reacted to: ").
    rewrite <- !app_assoc. reflexivity.
  - intros reactor Hf He. split.
    + unfold latestReaction. rewrite Hf. reflexivity.
    + intros message_id group_id. unfold reactionEmoji. simpl.
      rewrite He. reflexivity.
Qed.

(** C8 as stated fails on the empty text: it has length 0, and its
    preview is the placeholder, not the text. *)
Lemma empty_text_is_replaced :
  ~ (forall t, text emptyText = Some t -> List.length t <= 100 ->
               messagePreview emptyText = t).
Proof.
  intros H. specialize (H [] eq_refl (Nat.le_0_l _)). discriminate H.
Qed.

Lemma reaction_extraction_witness :
  let data := with_reactors reacted [bareReactor; thumbReactor] in
  let st := @start scripted [Some {| statusCode := 204; body := Malformed |}] in
  (favorited_by data = Some [bareReactor; thumbReactor] /\
   [bareReactor; thumbReactor] <> [] /\
   opt_is (sender_type data) (lit "bot") = false) /\
  exists latest,
    nth_error [bareReactor; thumbReactor] (2 - 1) = Some latest /\
    latestReaction data = Some latest /\
    @handleGroupMeWebhook scripted asciiRuntime configured data st =
    (success <- @sendReactionToDiscord scripted configured
                  {| rd_favorited_by := latest; rd_message_id := id data;
                     rd_group_id := group_id data |} data ;;
     ret (reactionResult success)) st.
Proof.
  intros data st. split; [repeat split; discriminate|].
  destruct (@reaction_extraction scripted asciiRuntime configured data st)
    as (_ & H & _).
  destruct (H [bareReactor; thumbReactor] eq_refl)
    as (latest & Hn & Hl & _ & _ & _ & _ & _ & Hh).
  - discriminate.
  - exists latest. split; [exact Hn | split; [exact Hl|]].
    apply Hh. reflexivity.
Defined.

Lemma reaction_preview_witness :
  (text reacted = Some longText /\ 100 < List.length longText /\
   favorited_by reacted = Some [thumbReactor] /\
   emoji thumbReactor = Some thumbs_up) /\
  (messagePreview reacted = firstn 97 longText ++ lit "..." /\
   List.length (messagePreview reacted) = 100) /\
  latestReaction reacted = Some thumbReactor.
Proof.
  split; [repeat split; unfold longText; rewrite repeat_length; lia|].
  destruct (reaction_preview reacted) as (_ & _ & Hlong & _ & _ & Hthumb).
  split.
  - apply Hlong; [reflexivity|].
    unfold longText. rewrite repeat_length. lia.
  - apply (Hthumb thumbReactor); reflexivity.
Defined.

(* ================================================================== *)
(** * The window of the heuristic fallback *)

Lemma same_id_same_position (log : list Message) (i j : nat) (a b : Message) :
  NoDup (map id log) ->
  nth_error log i = Some a -> nth_error log j = Some b ->
  id a = id b -> i = j.
Proof.
  intros Hnd Hi Hj E.
  apply (proj1 (NoDup_nth_error (map id log)) Hnd).
  - rewrite length_map. apply nth_error_Some. congruence.
  - rewrite !nth_error_map, Hi, Hj. simpl. congruence.
Qed.

(** In a history without repeated identifiers, a message posted strictly
    before the one called [b] is not that message and was not posted
    after it. *)
Lemma strictly_before_excludes (log : list Message) (e : Message) (b : jsstring) :
  NoDup (map id log) ->
  strictly_before log e b ->
  id e <> b /\ ~ at_or_after log e b.
Proof.
  intros Hnd (i & j & Hi & (m & Hj & Hm) & Hlt). split.
  - intros E.
    assert (i = j) by (apply (same_id_same_position log i j Hnd Hi Hj); congruence).
    lia.
  - intros (i' & j' & Hi' & (m' & Hj' & Hm') & Hle).
    assert (i = i') by (apply (same_id_same_position log i i' Hnd Hi Hi'); reflexivity).
    assert (j = j') by (apply (same_id_same_position log j j' Hnd Hj Hj'); congruence).
    lia.
Qed.

Section Fallback.
Context {net : Network} {rt : Runtime} (env : Env).

(** C10, as the code has it.  For a payload that is not a bot's and has
    no reactor, with the access token set, when the structured
    resolution gives absent the handler goes on with
    [getGroupMeMessages(data.group_id, data.id, 20)] and runs the
    heuristic detector on its result; the one request of that fetch has
    [limit = 20].  When the identifier of the message is not the empty
    string the request carries [before_id = data.id]; so, the history
    service honoring the before-cursor contract on a history without
    repeated identifiers, no entry of the window the detector scans is
    the message itself or a message posted after it. *)
Theorem heuristic_window_precedes data st st1 :
  opt_is (sender_type data) (lit "bot") = false ->
  favorited_by data = None \/ favorited_by data = Some [] ->
  truthy (GROUPME_ACCESS_TOKEN env) = true ->
  findReplyContext env data st = (Returned None, st1) ->
  let fetch := getGroupMeMessages env (group_id data) (Some (id data)) 20 in
  handleGroupMeWebhook env data st =
  (replyContext <- (recentMessages <- fetch ;;
                    lift (detectReplyFromText data recentMessages)) ;;
   success <- sendToDiscord env data replyContext ;;
   ret (messageResult success match replyContext with
                              | Some _ => true
                              | None => false
                              end)) st1 /\
  trace (snd (fetch st1)) =
  trace st1 ++ [history_request env (group_id data) (id data) 20] /\
  (id data <> [] ->
   history_request env (group_id data) (id data) 20 =
   GetMessages (group_id data) (GROUPME_ACCESS_TOKEN env) 20 (Some (id data)) /\
   forall log window e,
     NoDup (map id log) ->
     honors_before_cursor log (world st1) ->
     fst (fetch st1) = Returned (Some window) ->
     In e window ->
     id e <> id data /\ ~ at_or_after log e (id data)).
Proof.
  intros Hb Hr Ht Hs fetch.
  split; [|split].
  - unfold handleGroupMeWebhook, resolveReplyContext.
    rewrite Hb, (latestReaction_none _ Hr), Ht. simpl.
    rewrite Hs. reflexivity.
  - unfold fetch. rewrite getGroupMeMessages_run. reflexivity.
  - intros Hid.
    assert (Hcursor : (if truthy (Some (id data)) then Some (id data) else None)
                      = Some (id data)).
    { destruct (id data); [congruence | reflexivity]. }
    split; [unfold history_request; rewrite Hcursor; reflexivity|].
    intros log window e Hnd Hh Hw Hin.
    apply strictly_before_excludes; [exact Hnd|].
    unfold fetch in Hw. rewrite getGroupMeMessages_run, Hcursor in Hw.
    cbn [fst] in Hw.
    destruct (respond (world st1) _) as [[response|] w'] eqn:Er;
      simpl in Hw.
    + destruct (statusCode response =? 200)%Z eqn:E200.
      * apply Z.eqb_eq in E200.
        destruct (body response) as [| |ms] eqn:Eb.
        -- assert (window = []) by congruence. subst window. destruct Hin.
        -- discriminate Hw.
        -- assert (ms = window) by congruence. subst ms.
           exact (Hh _ _ _ _ _ _ _ _ Er E200 Eb Hin).
      * assert (window = []) by congruence. subst window. destruct Hin.
    + assert (window = []) by congruence. subst window. destruct Hin.
Qed.
End Fallback.

(** The chat service honors the before-cursor contract on its own
    history. *)
Lemma older_than_split (b : jsstring) (log older : list Message) :
  older_than b log = Some older ->
  exists m newer, log = older ++ m :: newer /\ id m = b.
Proof.
  revert older; induction log as [|m log IH]; intros older; simpl;
    [discriminate|].
  destruct (str_eqb (id m) b) eqn:E.
  - intros H. injection H as <-. apply str_eqb_eq in E.
    exists m, log. split; [reflexivity | exact E].
  - destruct (older_than b log) as [older'|]; simpl; [|discriminate].
    intros H. injection H as <-.
    destruct (IH older' eq_refl) as (m' & newer & -> & Hm).
    exists m', newer. split; [reflexivity | exact Hm].
Qed.

Lemma firstn_incl {A} (n : nat) (l : list A) (x : A) :
  In x (firstn n l) -> In x l.
Proof.
  revert l; induction n as [|n IH]; intros [|a l]; simpl; try tauto.
  intros [<- | H]; [left; reflexivity | right; exact (IH _ H)].
Qed.

Lemma chatService_honors (log : list Message) :
  @honors_before_cursor chatService log log.
Proof.
  intros groupId token limit b response w' ms e Hr Hs Hb Hin.
  simpl in Hr. destruct (older_than b log) as [older|] eqn:E.
  - injection Hr as <- _. simpl in Hb. injection Hb as <-.
    apply firstn_incl, in_rev in Hin.
    destruct (older_than_split _ _ E) as (m & newer & -> & Hm).
    destruct (In_nth_error _ _ Hin) as [i Hi].
    exists i, (List.length older). repeat split.
    + unfold posted_at. rewrite nth_error_app1; [exact Hi|].
      apply nth_error_Some. congruence.
    + exists m. split; [|exact Hm].
      rewrite nth_error_app2, Nat.sub_diag; [reflexivity | lia].
    + apply nth_error_Some. congruence.
  - injection Hr as <- _. discriminate Hs.
Qed.

Lemma heuristic_window_precedes_witness :
  let st := @start chatService chatLog in
  let fetch := @getGroupMeMessages chatService configured (group_id mention5)
                                   (Some (id mention5)) 20 in
  let e3 := plain "3" "u1" "Alice B" "hi" in
  let e4 := plain "4" "u3" "Carol" "hm" in
  (opt_is (sender_type mention5) (lit "bot") = false /\
   (favorited_by mention5 = None \/ favorited_by mention5 = Some []) /\
   truthy (GROUPME_ACCESS_TOKEN configured) = true /\
   @findReplyContext chatService configured mention5 st = (Returned None, st) /\
   id mention5 <> [] /\
   NoDup (map id chatLog) /\
   @honors_before_cursor chatService chatLog (world st) /\
   fst (fetch st) = Returned (Some [e4; e3]) /\
   In e3 [e4; e3]) /\
  id e3 <> id mention5 /\ ~ at_or_after chatLog e3 (id mention5).
Proof.
  intros st fetch e3 e4.
  assert (Hnd : NoDup (map id chatLog)).
  { repeat constructor; simpl; intuition discriminate. }
  split.
  - repeat split; try reflexivity.
    + right. reflexivity.
    + discriminate.
    + exact Hnd.
    + apply chatService_honors.
    + right. left. reflexivity.
  - destruct (@heuristic_window_precedes chatService asciiRuntime configured
                mention5 st st eq_refl (or_intror eq_refl) eq_refl eq_refl)
      as (_ & _ & H).
    destruct H as [_ H]; [discriminate|].
    apply (H chatLog [e4; e3] e3 Hnd (chatService_honors chatLog) eq_refl).
    right. left. reflexivity.
Defined.

(** C10 as stated fails for a message whose identifier is the empty
    string: the source then sends no cursor, and the chat service, which
    honors the before-cursor contract, serves a window that holds the
    message itself. *)
Lemma empty_identifier_window :
  let st := @start chatService unnamedLog in
  let fetch := @getGroupMeMessages chatService configured (group_id unnamed5)
                                   (Some (id unnamed5)) 20 in
  (opt_is (sender_type unnamed5) (lit "bot") = false /\
   favorited_by unnamed5 = Some [] /\
   truthy (GROUPME_ACCESS_TOKEN configured) = true /\
   @findReplyContext chatService configured unnamed5 st = (Returned None, st) /\
   NoDup (map id unnamedLog) /\
   @honors_before_cursor chatService unnamedLog (world st)) /\
  ~ (forall window e,
        fst (fetch st) = Returned (Some window) ->
        In e window ->
        id e <> id unnamed5 /\ ~ at_or_after unnamedLog e (id unnamed5)).
Proof.
  intros st fetch. split.
  - repeat split.
    + repeat constructor; simpl; intuition discriminate.
    + apply chatService_honors.
  - intros H.
    destruct (H [unnamed5; plain "3" "u1" "Alice B" "hi"] unnamed5 eq_refl
                (or_introl eq_refl)) as [Hne _].
    apply Hne. reflexivity.
Qed.

(* ================================================================== *)
(** * The patterns on examples *)

Example mentionPattern_first_token :
  mentionPattern (lit "hey @ you, @Al_1ce! and @bob") = Some (lit "Al_1ce").
Proof. reflexivity. Qed.

Example quotePattern_second_line :
  quotePattern (lit "so" ++ newline ++ lit ">   what he said") =
  Some (lit "what he said").
Proof. reflexivity. Qed.

Example quotePattern_gives_back_spaces :
  quotePattern (lit ">  ") = Some (lit " ").
Proof. reflexivity. Qed.

Example quotePattern_needs_line_start :
  quotePattern (lit "a > b") = None.
Proof. reflexivity. Qed.

Example colonPattern_longest_capture :
  colonPattern (lit "a:b:  " ++ newline ++ lit "rest") = Some (lit "a:b").
Proof. reflexivity. Qed.

Example colonPattern_needs_line_end :
  colonPattern (lit "Alice: hello") = None.
Proof. reflexivity. Qed.

(** Scenario A runs through the whole handler on the chat service: the
    structured resolution asks nothing, the fallback asks for the 20
    messages before message 5, and the notice quotes Alice. *)
Example scenario_A_handled :
  let st := @start chatService chatLog in
  exists st',
    @handleGroupMeWebhook chatService asciiRuntime configured mention5 st =
    (Returned (messageResult true true), st') /\
    trace st' =
    [ GetMessages (lit "g") (Some (lit "tok")) 20 (Some (lit "5"));
      PostWebhook webhook
        (messagePayload mention5 (Some (plain "3" "u1" "Alice B" "hi"))) ].
Proof. eexists. split; reflexivity. Qed.

(* ================================================================== *)
(** * Further properties: the payloads *)

(** X1.  With a reply context the content of a bridged message is the
    header naming the replied-to author (['Unknown User'] without a
    name), the quoted preview of the replied-to text (the placeholder
    without a text), a blank line and the content the message has
    without context.  The preview never exceeds 150 code units: at most
    150 it is the text, beyond it is the first 147 followed by three
    dots. *)
Theorem reply_context_content message replyContext :
  let originalText := or_else (text replyContext) (lit "[No text content]") in
  exists preview,
    messageContent message (Some replyContext) =
    lit "**Replying to " ++ or_else (name replyContext) (lit "Unknown User") ++
    lit ":** " ++ double_quote ++ preview ++ double_quote ++
    newline ++ newline ++ messageContent message None /\
    List.length preview <= 150 /\
    (List.length originalText <= 150 -> preview = originalText) /\
    (150 < List.length originalText ->
     preview = firstn 147 originalText ++ lit "..." /\
     List.length preview = 150).
Proof.
  intros originalText. unfold messageContent. fold originalText.
  destruct (150 <? List.length originalText) eqn:E.
  - apply Nat.ltb_lt in E.
    exists (substring0 originalText 147 ++ lit "...").
    split; [reflexivity|].
    rewrite truncated_length by lia.
    repeat split; try reflexivity; lia.
  - apply Nat.ltb_ge in E. exists originalText.
    repeat split; try reflexivity; lia.
Qed.

Lemma reply_context_content_witness :
  let rc := with_text (plain "4" "u1" "Alice" "") (Some (repeat 97%N 200)) in
  150 < List.length (or_else (text rc) (lit "[No text content]")) /\
  exists preview,
    messageContent mention5 (Some rc) =
    lit "**Replying to " ++ lit "Alice" ++ lit ":** " ++ double_quote ++
    preview ++ double_quote ++ newline ++ newline ++ lit "@Alice lol" /\
    List.length preview = 150.
Proof.
  intros rc.
  assert (Hlen : 150 < List.length (or_else (text rc) (lit "[No text content]"))).
  { apply Nat.ltb_lt. vm_compute. reflexivity. }
  split; [exact Hlen|].
  destruct (reply_context_content mention5 rc) as (preview & E & _ & _ & Hlong).
  exists preview. split; [exact E | apply (Hlong Hlen)].
Defined.

(** X2.  The embeds of a bridged message are the addresses of its image
    attachments, in their order, and there is an [embeds] member only
    when the message has an image attachment: attachments of any other
    type, the reply attachment among them, are never embedded. *)
Theorem embeds_are_the_images message replyContext :
  match embeds (messagePayload message replyContext) with
  | Some urls =>
      urls <> [] /\
      exists atts, attachments message = Some atts /\
                   urls = map url (filter is_image atts)
  | None =>
      forall atts att,
        attachments message = Some atts -> In att atts ->
        is_image att = false
  end.
Proof.
  simpl. unfold messageEmbeds.
  destruct (attachments message) as [[|a atts]|].
  - intros atts att E Hin. injection E as <-. destruct Hin.
  - destruct (filter is_image (a :: atts)) as [|i images] eqn:Ef.
    + intros atts' att E Hin. injection E as <-.
      destruct (is_image att) eqn:Ei; [|reflexivity].
      assert (Hf : In att (filter is_image (a :: atts)))
        by (apply filter_In; split; assumption).
      rewrite Ef in Hf. destruct Hf.
    + split; [discriminate|].
      exists (a :: atts). split; [reflexivity | rewrite Ef; reflexivity].
  - intros atts att E. discriminate.
Qed.

Lemma embeds_are_the_images_witness :
  let m := with_attachments mention5
             [location_at; image_at "a.png"; reply_to "3"; image_at "b.png"] in
  exists atts,
    attachments m = Some atts /\
    [Some (lit "a.png"); Some (lit "b.png")] = map url (filter is_image atts).
Proof.
  intros m. exact (proj2 (embeds_are_the_images m None)).
Defined.

Lemma or_else_not_empty (x : option jsstring) (d : jsstring) :
  d <> [] -> or_else x d <> [].
Proof. destruct x as [[|c s]|]; simpl; intros H; try exact H; discriminate. Qed.

Lemma app_not_empty_l (a b : jsstring) : a <> [] -> a ++ b <> [].
Proof. destruct a; [congruence | discriminate]. Qed.

Lemma inherited_is_listed (e : jsstring) :
  inherited e = true -> In e objectPrototype.
Proof.
  unfold inherited. rewrite existsb_exists.
  intros (k & Hin & Hk). apply str_eqb_eq in Hk. subst k. exact Hin.
Qed.

(** X3.  On the name of a member that objects inherit ([constructor],
    [toString], [__proto__], ...) the conversion does not give the
    input back: [emojiMap[key]] reads the inherited member, and the
    notice shows the text of that member in place of the emoji. *)
Theorem convertReactionEmoji_inherited (e : jsstring) :
  inherited e = true ->
  convertReactionEmoji e = VInherited e /\
  to_String (convertReactionEmoji e) <> e.
Proof.
  intros Hi. apply inherited_is_listed in Hi.
  unfold objectPrototype in Hi. simpl in Hi.
  repeat (destruct Hi as [<- | Hi];
          [split; [reflexivity | vm_compute; discriminate]|]).
  destruct Hi.
Qed.

Lemma convertReactionEmoji_inherited_witness :
  inherited (lit "toString") = true /\
  to_String (convertReactionEmoji (lit "toString")) <> lit "toString".
Proof.
  split; [reflexivity|].
  apply (convertReactionEmoji_inherited (lit "toString")). reflexivity.
Defined.

Lemma to_String_converted_not_empty (e : jsstring) :
  e <> [] -> to_String (convertReactionEmoji e) <> [].
Proof.
  intros He. unfold convertReactionEmoji.
  destruct (get emojiMap e) as [[[|c s]|key]|]; simpl.
  - exact He.
  - discriminate.
  - destruct (str_eqb key (lit "__proto__")); [discriminate|].
    destruct (str_eqb key (lit "constructor")); discriminate.
  - exact He.
Qed.

(** X4.  Nothing the bridge posts to Discord is empty.  A bridged
    message always has a user name and a content (the defaults
    ['GroupMe User'] and ['[No text content]'] fill in), with or without
    reply context; in a reaction notice the emoji text, the reactor
    name and the quoted preview are each non-empty. *)
Theorem posted_texts_never_empty :
  (forall message replyContext,
      username (messagePayload message replyContext) <> [] /\
      content (messagePayload message replyContext) <> []) /\
  (forall reactionData originalMessage,
      to_String (reactionEmoji reactionData) <> [] /\
      reacterName reactionData <> [] /\
      messagePreview originalMessage <> [] /\
      content (reactionPayload reactionData originalMessage) <> []).
Proof.
  split.
  - intros message replyContext. simpl. split.
    + apply or_else_not_empty. discriminate.
    + unfold messageContent. destruct replyContext as [rc|].
      * discriminate.
      * apply or_else_not_empty. discriminate.
  - intros reactionData originalMessage.
    assert (He : to_String (reactionEmoji reactionData) <> []).
    { apply to_String_converted_not_empty, or_else_not_empty. discriminate. }
    split; [exact He | split; [|split]].
    + apply or_else_not_empty. discriminate.
    + unfold messagePreview.
      set (p := or_else (text originalMessage) (lit "[No text content]")).
      destruct (100 <? List.length p) eqn:E.
      * intros H. apply (f_equal (@List.length N)) in H.
        apply Nat.ltb_lt in E. rewrite truncated_length in H by lia.
        discriminate.
      * apply or_else_not_empty. discriminate.
    + simpl. apply app_not_empty_l. exact He.
Qed.

(* ================================================================== *)
(** * Further properties: requests and deliveries *)

Section Deliveries.
Context {net : Network} (env : Env).

(** X5.  [getGroupMeMessages] makes exactly one request, whatever comes
    back, and sends the cursor only when [beforeId] is a non-empty
    string.  On a 200 it returns the served messages as they are, in
    their order and however many (the limit is only asked of the
    service, not applied to the answer); a 200 whose body does not parse
    gives the empty sequence, and a 200 whose body has no [messages]
    gives undefined. *)
Theorem getGroupMeMessages_page groupId beforeId limit st :
  let req := GetMessages groupId (GROUPME_ACCESS_TOKEN env) limit
                         (if truthy beforeId then beforeId else None) in
  trace (snd (getGroupMeMessages env groupId beforeId limit st)) =
  trace st ++ [req] /\
  (truthy beforeId = false ->
   req = GetMessages groupId (GROUPME_ACCESS_TOKEN env) limit None) /\
  (forall response,
      fst (respond (world st) req) = Some response ->
      statusCode response = 200%Z ->
      (forall ms, body response = Messages ms ->
                  fst (getGroupMeMessages env groupId beforeId limit st) =
                  Returned (Some ms)) /\
      (body response = Malformed ->
       fst (getGroupMeMessages env groupId beforeId limit st) =
       Returned (Some [])) /\
      (body response = NoMessages ->
       fst (getGroupMeMessages env groupId beforeId limit st) =
       Returned None)).
Proof.
  intros req. rewrite getGroupMeMessages_run. fold req. simpl.
  split; [reflexivity | split].
  - intros Hf. unfold req. rewrite Hf. reflexivity.
  - intros response Hr H200. rewrite Hr, H200. simpl.
    repeat split; [intros ms E | intros E | intros E]; rewrite E; reflexivity.
Qed.

(** X6.  Both delivery functions throw, before any request, when the
    webhook address is not set.  With the address set they never throw:
    they make exactly one request, the post of their payload, and return
    true exactly when a response came back with a status below 300; a
    failed request gives false. *)
Theorem delivery_outcome message replyContext reactionData originalMessage st :
  (DISCORD_WEBHOOK_URL env = None ->
   sendToDiscord env message replyContext st = (Threw TypeError, st) /\
   sendReactionToDiscord env reactionData originalMessage st =
   (Threw TypeError, st)) /\
  (forall webhookUrl deliver post,
      DISCORD_WEBHOOK_URL env = Some webhookUrl ->
      (deliver = sendToDiscord env message replyContext /\
       post = PostWebhook webhookUrl (messagePayload message replyContext)) \/
      (deliver = sendReactionToDiscord env reactionData originalMessage /\
       post = PostWebhook webhookUrl
                          (reactionPayload reactionData originalMessage)) ->
      exists delivered,
        deliver st =
        (Returned delivered,
         {| world := snd (respond (world st) post);
            trace := trace st ++ [post] |}) /\
        (delivered = true <->
         exists response,
           fst (respond (world st) post) = Some response /\
           (statusCode response < 300)%Z)).
Proof.
  split.
  - intros Hu. unfold sendToDiscord, sendReactionToDiscord.
    rewrite Hu. split; reflexivity.
  - intros webhookUrl deliver post Hu Hd.
    exists (accepted (fst (respond (world st) post))). split.
    + destruct Hd as [[-> ->] | [-> ->]].
      * apply (sendToDiscord_run env _ _ st Hu).
      * apply (sendReactionToDiscord_run env _ _ st Hu).
    + unfold accepted.
      destruct (fst (respond (world st) post)) as [response|].
      * rewrite Z.ltb_lt. split.
        -- intros H. exists response. split; [reflexivity | exact H].
        -- intros (r & E & H). injection E as <-. exact H.
      * split; [discriminate | intros (r & E & _); discriminate].
Qed.
End Deliveries.

Lemma getGroupMeMessages_page_witness :
  let long := [plain "4" "u3" "Carol" "hm"; plain "3" "u1" "Alice B" "hi";
               plain "2" "u1" "Alice B" "yo"] in
  let st := @start scripted [page long] in
  (truthy (Some []) = false /\
   fst (@respond scripted (world st)
          (GetMessages (lit "g") (Some (lit "tok")) 2 None)) = page long) /\
  trace (snd (@getGroupMeMessages scripted configured (lit "g") (Some []) 2 st)) =
  [GetMessages (lit "g") (Some (lit "tok")) 2 None] /\
  fst (@getGroupMeMessages scripted configured (lit "g") (Some []) 2 st) =
  Returned (Some long).
Proof.
  intros long st. split; [split; reflexivity|].
  destruct (@getGroupMeMessages_page scripted configured (lit "g") (Some []) 2 st)
    as (Ht & _ & Hp).
  split; [exact Ht|].
  destruct (Hp _ eq_refl eq_refl) as (Hms & _).
  apply Hms. reflexivity.
Defined.

Lemma delivery_outcome_witness :
  let st := @start scripted [Some {| statusCode := 204; body := Malformed |}] in
  (DISCORD_WEBHOOK_URL configured = Some webhook /\
   DISCORD_WEBHOOK_URL addressless = None) /\
  (exists delivered,
      fst (@sendToDiscord scripted configured mention5 None st) =
      Returned delivered /\ delivered = true) /\
  @sendToDiscord scripted addressless mention5 None st = (Threw TypeError, st).
Proof.
  intros st. split; [split; reflexivity | split].
  - destruct (@delivery_outcome scripted configured mention5 None
                {| rd_favorited_by := thumbReactor; rd_message_id := [];
                   rd_group_id := [] |} mention5 st) as [_ H].
    destruct (H webhook _ _ eq_refl (or_introl (conj eq_refl eq_refl)))
      as (delivered & E & Hd).
    exists delivered. split; [rewrite E; reflexivity|].
    apply Hd. eexists. split; [reflexivity|]. simpl. lia.
  - apply (@delivery_outcome scripted addressless mention5 None
             {| rd_favorited_by := thumbReactor; rd_message_id := [];
                rd_group_id := [] |} mention5 st).
    reflexivity.
Defined.

(* ================================================================== *)
(** * Further properties: the handler as a whole *)

Section Orchestration.
Context {net : Network} {rt : Runtime} (env : Env).

Lemma getGroupMeMessages_window groupId beforeId limit st :
  serves_arrays ->
  exists window,
    fst (getGroupMeMessages env groupId beforeId limit st) =
    Returned (Some window).
Proof.
  intros Hs. rewrite getGroupMeMessages_run. simpl.
  destruct (respond (world st) _) as [[response|] w] eqn:Er; simpl.
  - destruct (statusCode response =? 200)%Z eqn:E; [|eexists; reflexivity].
    apply Z.eqb_eq in E. pose proof (Hs _ _ _ _ Er E) as Hb.
    destruct (body response); [eexists; reflexivity | congruence
                              | eexists; reflexivity].
  - eexists. reflexivity.
Qed.

Lemma findReplyContext_requests message st :
  exists fetches,
    trace (snd (findReplyContext env message st)) = trace st ++ fetches /\
    (fetches = [] \/
     fetches = [history_request env (group_id message) (id message) 50]).
Proof.
  destruct (attachments message) as [atts|] eqn:Ha.
  - destruct (find is_reply atts) as [replyAttachment|] eqn:Hf.
    + rewrite (findReplyContext_run env _ st Ha Hf). simpl.
      rewrite getGroupMeMessages_run.
      eexists. split; [reflexivity | right; reflexivity].
    + exists []. split; [|left; reflexivity].
      unfold findReplyContext. rewrite Ha.
      destruct atts as [|a atts]; [|rewrite Hf];
        simpl; symmetry; apply app_nil_r.
  - exists []. split; [|left; reflexivity].
    unfold findReplyContext. rewrite Ha. simpl. symmetry. apply app_nil_r.
Qed.

Lemma findReplyContext_returns message st :
  serves_arrays ->
  exists r, fst (findReplyContext env message st) = Returned r.
Proof.
  intros Hs. destruct (attachments message) as [atts|] eqn:Ha.
  - destruct (find is_reply atts) as [replyAttachment|] eqn:Hf.
    + rewrite (findReplyContext_run env _ st Ha Hf). simpl.
      destruct (getGroupMeMessages_window (group_id message)
                  (Some (id message)) 50 st Hs) as [window Hw].
      destruct (getGroupMeMessages env (group_id message)
                  (Some (id message)) 50 st) as [c st1].
      simpl in Hw. subst c. simpl. eexists. reflexivity.
    + unfold findReplyContext. rewrite Ha.
      destruct atts as [|a atts]; [|rewrite Hf]; eexists; reflexivity.
  - unfold findReplyContext. rewrite Ha. eexists. reflexivity.
Qed.

Lemma detectReplyFromText_returns message window :
  exists r, detectReplyFromText message (Some window) = Returned r.
Proof.
  destruct (text message) as [[|c s]|] eqn:Ht.
  - unfold detectReplyFromText. rewrite Ht. eexists. reflexivity.
  - rewrite (detectReplyFromText_window _ window Ht) by discriminate.
    eexists. reflexivity.
  - unfold detectReplyFromText. rewrite Ht. eexists. reflexivity.
Qed.

Lemma getGroupMeMessages_returns groupId beforeId limit st :
  exists window,
    fst (getGroupMeMessages env groupId beforeId limit st) = Returned window.
Proof. rewrite getGroupMeMessages_run. eexists. reflexivity. Qed.

Lemma js_find_throws {A} (arr : option (list A)) (p : A -> bool) (x : Exn) :
  js_find arr p = Threw x -> x = TypeError.
Proof. destruct arr; simpl; congruence. Qed.

Lemma scanPatterns_throws patterns message t recentMessages x :
  scanPatterns patterns message t recentMessages = Threw x -> x = TypeError.
Proof.
  induction patterns as [|pattern patterns IH]; simpl; [discriminate|].
  destruct (pattern t) as [capture|]; [|exact IH].
  destruct (js_find recentMessages _) as [[m|]|x'] eqn:Ej; simpl.
  - discriminate.
  - exact IH.
  - intros H. injection H as <-. exact (js_find_throws _ _ Ej).
Qed.

Lemma detectReplyFromText_throws message recentMessages x :
  detectReplyFromText message recentMessages = Threw x -> x = TypeError.
Proof.
  unfold detectReplyFromText.
  destruct (text message) as [[|c s]|]; try discriminate.
  destruct (mentionPattern (c :: s)) as [token|].
  - destruct (js_find recentMessages _) as [[m|]|x'] eqn:Ej;
      cbn [bind Completion_Monad].
    + discriminate.
    + exact (@scanPatterns_throws replyPatterns message (c :: s)
                                  recentMessages x).
    + intros H. injection H as <-. exact (js_find_throws _ _ Ej).
  - exact (@scanPatterns_throws replyPatterns message (c :: s)
                                recentMessages x).
Qed.

Lemma findReplyContext_throws message st x :
  fst (findReplyContext env message st) = Threw x -> x = TypeError.
Proof.
  destruct (attachments message) as [atts|] eqn:Ha.
  - destruct (find is_reply atts) as [replyAttachment|] eqn:Hf.
    + rewrite (findReplyContext_run env _ st Ha Hf). simpl.
      destruct (getGroupMeMessages_returns (group_id message)
                  (Some (id message)) 50 st) as [w Hw].
      destruct (getGroupMeMessages env (group_id message)
                  (Some (id message)) 50 st) as [c st1].
      simpl in Hw. subst c. simpl. apply js_find_throws.
    + unfold findReplyContext. rewrite Ha.
      destruct atts as [|a atts]; [|rewrite Hf]; discriminate.
  - unfold findReplyContext. rewrite Ha. discriminate.
Qed.

Lemma history_request_for groupId cursor limit :
  history_fetch_for env groupId (history_request env groupId cursor limit).
Proof. eexists. eexists. reflexivity. Qed.

(** The resolution of the reply context asks for history at most twice,
    for the group of the message. *)
Lemma resolveReplyContext_requests data st :
  exists fetches,
    trace (snd (resolveReplyContext env data st)) = trace st ++ fetches /\
    List.length fetches <= 2 /\
    Forall (history_fetch_for env (group_id data)) fetches.
Proof.
  unfold resolveReplyContext.
  destruct (truthy (GROUPME_ACCESS_TOKEN env)).
  - destruct (findReplyContext_requests data st) as (f1 & Hf1 & Hc).
    assert (F1 : List.length f1 <= 1 /\
                 Forall (history_fetch_for env (group_id data)) f1).
    { destruct Hc as [-> | ->]; simpl; split; try lia; constructor.
      - apply history_request_for.
      - constructor. }
    simpl. destruct (findReplyContext env data st) as [[[e|]|ex] st1];
      simpl in *.
    + exists f1. repeat split; [exact Hf1 | lia | tauto].
    + rewrite getGroupMeMessages_run. simpl. rewrite Hf1.
      exists (f1 ++ [history_request env (group_id data) (id data) 20]).
      rewrite app_assoc, length_app. simpl.
      repeat split; [lia|].
      apply Forall_app. split; [tauto|].
      constructor; [apply history_request_for | constructor].
    + exists f1. repeat split; [exact Hf1 | lia | tauto].
  - exists []. simpl. repeat split; [symmetry; apply app_nil_r | lia | constructor].
Qed.

Lemma resolveReplyContext_returns data st :
  serves_arrays ->
  exists r, fst (resolveReplyContext env data st) = Returned r.
Proof.
  intros Hs. unfold resolveReplyContext.
  destruct (truthy (GROUPME_ACCESS_TOKEN env)); [|eexists; reflexivity].
  simpl. destruct (findReplyContext_returns data st Hs) as [r Hr].
  destruct (findReplyContext env data st) as [c st1]. simpl in Hr. subst c.
  destruct r as [e|]; [eexists; reflexivity|].
  destruct (getGroupMeMessages_window (group_id data) (Some (id data)) 20
              st1 Hs) as [window Hw].
  destruct (getGroupMeMessages env (group_id data) (Some (id data)) 20 st1)
    as [c st2].
  simpl in Hw. subst c. simpl.
  destruct (detectReplyFromText_returns data window) as [r ->].
  eexists. reflexivity.
Qed.

Lemma resolveReplyContext_throws data st x :
  fst (resolveReplyContext env data st) = Threw x -> x = TypeError.
Proof.
  unfold resolveReplyContext.
  destruct (truthy (GROUPME_ACCESS_TOKEN env)); [|discriminate].
  simpl. pose proof (findReplyContext_throws data st) as Hf.
  destruct (findReplyContext env data st) as [[[e|]|x'] st1]; simpl in *.
  - discriminate.
  - destruct (getGroupMeMessages_returns (group_id data) (Some (id data)) 20
                st1) as [w Hw].
    destruct (getGroupMeMessages env (group_id data) (Some (id data)) 20 st1)
      as [c st2].
    simpl in Hw. subst c. simpl. apply detectReplyFromText_throws.
  - intros H. injection H as <-. apply Hf. reflexivity.
Qed.
End Orchestration.

Section WholeHandler.
Context {net : Network} {rt : Runtime} (env : Env).

(** X7.  With the webhook address set, a payload that is not a bot's and
    is handled to a result costs at most two history requests, both for
    the group of the message with the access token, followed by exactly
    one post to the webhook.  [success] is whether that post was
    accepted.  The post is the reaction notice of the latest reactor,
    with type reaction and no history request at all, or the bridged
    message with the resolved context, with type message and [hasReply]
    telling whether the posted content carries a context.  When the
    history service never answers 200 without a [messages] array, the
    handler always comes to such a result. *)
Theorem handler_requests data st webhookUrl :
  opt_is (sender_type data) (lit "bot") = false ->
  DISCORD_WEBHOOK_URL env = Some webhookUrl ->
  (forall r st',
      handleGroupMeWebhook env data st = (Returned r, st') ->
      exists fetches payload st1,
        trace st1 = trace st ++ fetches /\
        List.length fetches <= 2 /\
        Forall (history_fetch_for env (group_id data)) fetches /\
        trace st' = trace st1 ++ [PostWebhook webhookUrl payload] /\
        success r =
        accepted (fst (respond (world st1) (PostWebhook webhookUrl payload))) /\
        ((exists latest,
             latestReaction data = Some latest /\
             fetches = [] /\
             type r = Some (lit "reaction") /\
             payload = reactionPayload
                         {| rd_favorited_by := latest;
                            rd_message_id := id data;
                            rd_group_id := group_id data |} data) \/
         (exists replyContext,
             latestReaction data = None /\
             type r = Some (lit "message") /\
             payload = messagePayload data replyContext /\
             hasReply r = Some match replyContext with
                               | Some _ => true
                               | None => false
                               end))) /\
  (serves_arrays ->
   exists r st', handleGroupMeWebhook env data st = (Returned r, st')).
Proof.
  intros Hb Hu. unfold handleGroupMeWebhook. rewrite Hb.
  destruct (latestReaction data) as [latest|] eqn:Hl.
  - simpl. rewrite (sendReactionToDiscord_run env _ _ st Hu). simpl. split.
    + intros r st' H. injection H as <- <-.
      exists [], (reactionPayload {| rd_favorited_by := latest;
                                     rd_message_id := id data;
                                     rd_group_id := group_id data |} data), st.
      simpl.
      split; [symmetry; apply app_nil_r|]. split; [lia|].
      split; [constructor|]. split; [reflexivity|]. split; [reflexivity|].
      left. exists latest. repeat split.
    + intros _. eexists. eexists. reflexivity.
  - simpl.
    destruct (resolveReplyContext_requests env data st)
      as (fetches & Ht & Hlen & Hall).
    pose proof (resolveReplyContext_returns env data st) as Hret.
    destruct (resolveReplyContext env data st) as [[replyContext|x] st1];
      simpl in *.
    + rewrite (sendToDiscord_run env _ _ st1 Hu). simpl. split.
      * intros r st' H. injection H as <- <-.
        exists fetches, (messagePayload data replyContext), st1. simpl.
        split; [exact Ht|]. split; [exact Hlen|]. split; [exact Hall|].
        split; [reflexivity|]. split; [reflexivity|].
        right. exists replyContext. repeat split.
      * intros _. eexists. eexists. reflexivity.
    + split; [discriminate|].
      intros Hs. destruct (Hret Hs) as [r Hr]. discriminate.
Qed.

Lemma no_address_throws data st :
  opt_is (sender_type data) (lit "bot") = false ->
  DISCORD_WEBHOOK_URL env = None ->
  fst (handleGroupMeWebhook env data st) = Threw TypeError.
Proof.
  intros Hb Hu. unfold handleGroupMeWebhook. rewrite Hb.
  destruct (latestReaction data) as [latest|].
  - simpl. unfold sendReactionToDiscord. rewrite Hu. reflexivity.
  - simpl. pose proof (resolveReplyContext_throws env data st) as Hx.
    destruct (resolveReplyContext env data st) as [[replyContext|x] st1];
      simpl in *.
    + unfold sendToDiscord. rewrite Hu. reflexivity.
    + rewrite (Hx x eq_refl). reflexivity.
Qed.

(** X8.  Without the webhook address every payload that is not a bot's
    makes the handler throw a TypeError, so the route answers 500;
    nothing is posted, though the history requests of the reply
    resolution may already have been made. *)
Theorem handler_without_address data st :
  opt_is (sender_type data) (lit "bot") = false ->
  DISCORD_WEBHOOK_URL env = None ->
  fst (handleGroupMeWebhook env data st) = Threw TypeError /\
  exists added,
    trace (snd (handleGroupMeWebhook env data st)) = trace st ++ added /\
    no_delivery added.
Proof.
  intros Hb Hu. split; [exact (no_address_throws data st Hb Hu)|].
  unfold handleGroupMeWebhook. rewrite Hb.
  destruct (latestReaction data) as [latest|].
  - simpl. unfold sendReactionToDiscord. rewrite Hu. simpl.
    exists []. split; [symmetry; apply app_nil_r | intros to payload []].
  - simpl.
    destruct (resolveReplyContext_requests env data st)
      as (fetches & Ht & _ & Hall).
    assert (Hnd : no_delivery fetches).
    { intros to payload Hin. rewrite Forall_forall in Hall.
      destruct (Hall _ Hin) as (limit & before_id & E). discriminate. }
    destruct (resolveReplyContext env data st) as [[replyContext|x] st1];
      simpl in *.
    + unfold sendToDiscord. rewrite Hu. simpl.
      exists fetches. split; assumption.
    + exists fetches. split; assumption.
Qed.

Lemma findReplyContext_found message st e :
  fst (findReplyContext env message st) = Returned (Some e) ->
  trace (snd (findReplyContext env message st)) =
  trace st ++ [history_request env (group_id message) (id message) 50].
Proof.
  destruct (attachments message) as [atts|] eqn:Ha.
  - destruct (find is_reply atts) as [replyAttachment|] eqn:Hf.
    + rewrite (findReplyContext_run env _ st Ha Hf). simpl.
      rewrite getGroupMeMessages_run. reflexivity.
    + unfold findReplyContext. rewrite Ha.
      destruct atts as [|a atts]; [|rewrite Hf]; discriminate.
  - unfold findReplyContext. rewrite Ha. discriminate.
Qed.

(** X9.  A structured match is final: for a payload that is not a bot's
    and has no reactor, with the access token set, when
    [findReplyContext] finds an entry the handler makes no second
    history request and does not consult the text patterns; it delivers
    the message with that entry as context and reports [hasReply]
    true. *)
Theorem structured_reply_is_final data st st1 e :
  opt_is (sender_type data) (lit "bot") = false ->
  favorited_by data = None \/ favorited_by data = Some [] ->
  truthy (GROUPME_ACCESS_TOKEN env) = true ->
  findReplyContext env data st = (Returned (Some e), st1) ->
  handleGroupMeWebhook env data st =
  (success <- sendToDiscord env data (Some e) ;;
   ret (messageResult success true)) st1 /\
  trace st1 =
  trace st ++ [history_request env (group_id data) (id data) 50] /\
  forall webhookUrl,
    DISCORD_WEBHOOK_URL env = Some webhookUrl ->
    trace (snd (handleGroupMeWebhook env data st)) =
    trace st ++ [history_request env (group_id data) (id data) 50;
                 PostWebhook webhookUrl (messagePayload data (Some e))].
Proof.
  intros Hb Hr Ht Hs.
  assert (E : handleGroupMeWebhook env data st =
              (success <- sendToDiscord env data (Some e) ;;
               ret (messageResult success true)) st1).
  { unfold handleGroupMeWebhook, resolveReplyContext.
    rewrite Hb, (latestReaction_none _ Hr), Ht. simpl.
    rewrite Hs. reflexivity. }
  assert (T : trace st1 =
              trace st ++ [history_request env (group_id data) (id data) 50]).
  { pose proof (@findReplyContext_found data st e) as F.
    rewrite Hs in F. apply F. reflexivity. }
  split; [exact E | split; [exact T|]].
  intros webhookUrl Hu. rewrite E. simpl.
  rewrite (sendToDiscord_run env _ _ st1 Hu). simpl.
  rewrite T, <- app_assoc. reflexivity.
Qed.

(** X10.  A reaction never enters the reply resolution: for a payload
    that is not a bot's and has a reactor, the handler makes no history
    request, whatever the access token, the attachments and the text. *)
Theorem reactions_never_fetch data st reactors :
  opt_is (sender_type data) (lit "bot") = false ->
  favorited_by data = Some reactors -> reactors <> [] ->
  exists added,
    trace (snd (handleGroupMeWebhook env data st)) = trace st ++ added /\
    no_history_fetch added.
Proof.
  intros Hb Hf Hne.
  destruct (latestReaction_last _ Hf Hne) as (latest & _ & Hl).
  unfold handleGroupMeWebhook. rewrite Hb, Hl. simpl.
  unfold sendReactionToDiscord.
  destruct (DISCORD_WEBHOOK_URL env) as [webhookUrl|]; simpl.
  - unfold try_catch, makeRequest. simpl.
    destruct (respond (world st) _) as [[response|] w]; simpl;
      (eexists; split; [reflexivity|]);
      intros g t l b [H | []]; discriminate.
  - exists []. split; [symmetry; apply app_nil_r | intros g t l b []].
Qed.
End WholeHandler.

Lemma chatService_serves_arrays : @serves_arrays chatService.
Proof.
  intros w req response w' Hr Hs Hb.
  destruct req as [groupId token limit [b|] | to payload]; simpl in Hr.
  - destruct (older_than b w); injection Hr as <- _; discriminate.
  - injection Hr as <- _. discriminate.
  - injection Hr as <- _. discriminate.
Qed.

Lemma handler_requests_witness :
  let st := @start chatService chatLog in
  (opt_is (sender_type mention5) (lit "bot") = false /\
   DISCORD_WEBHOOK_URL configured = Some webhook /\
   @serves_arrays chatService) /\
  exists r st',
    @handleGroupMeWebhook chatService asciiRuntime configured mention5 st =
    (Returned r, st').
Proof.
  intros st. split; [repeat split; apply chatService_serves_arrays|].
  apply (@handler_requests chatService asciiRuntime configured mention5 st
           webhook eq_refl eq_refl).
  apply chatService_serves_arrays.
Defined.

Lemma handler_without_address_witness :
  let st := @start chatService chatLog in
  (opt_is (sender_type mention5) (lit "bot") = false /\
   DISCORD_WEBHOOK_URL addressless = None) /\
  fst (@handleGroupMeWebhook chatService asciiRuntime addressless mention5 st) =
  Threw TypeError.
Proof.
  intros st. split; [split; reflexivity|].
  apply (@handler_without_address chatService asciiRuntime addressless
           mention5 st); reflexivity.
Defined.

Lemma structured_reply_is_final_witness :
  let st := @start scripted [page page7;
                             Some {| statusCode := 204; body := Malformed |}] in
  let e7 := plain "7" "u1" "Alice" "original" in
  let st1 := snd (@findReplyContext scripted configured reply9 st) in
  (opt_is (sender_type reply9) (lit "bot") = false /\
   favorited_by reply9 = Some [] /\
   truthy (GROUPME_ACCESS_TOKEN configured) = true /\
   @findReplyContext scripted configured reply9 st = (Returned (Some e7), st1)) /\
  trace (snd (@handleGroupMeWebhook scripted asciiRuntime configured reply9 st)) =
  [history_request configured (group_id reply9) (id reply9) 50;
   PostWebhook webhook (messagePayload reply9 (Some e7))].
Proof.
  intros st e7 st1. split; [repeat split|].
  destruct (@structured_reply_is_final scripted asciiRuntime configured
              reply9 st st1 e7 eq_refl (or_intror eq_refl) eq_refl eq_refl)
    as (_ & _ & H).
  apply (H webhook eq_refl).
Defined.

Lemma reactions_never_fetch_witness :
  let data := with_reactors reply9 [thumbReactor] in
  let st := @start scripted [Some {| statusCode := 204; body := Malformed |}] in
  (opt_is (sender_type data) (lit "bot") = false /\
   favorited_by data = Some [thumbReactor] /\ [thumbReactor] <> []) /\
  exists added,
    trace (snd (@handleGroupMeWebhook scripted asciiRuntime configured data st)) =
    trace st ++ added /\
    no_history_fetch added.
Proof.
  intros data st. split; [repeat split; discriminate|].
  apply (@reactions_never_fetch scripted asciiRuntime configured data st
           [thumbReactor] eq_refl eq_refl).
  discriminate.
Defined.

(* ================================================================== *)
(** * Further properties: the text patterns *)

Lemma dot_plus_one_line (s cap : jsstring) :
  dot_plus s = Some cap ->
  exists after, s = cap ++ after /\ one_line cap /\ ends_line after.
Proof.
  unfold dot_plus.
  destruct (take_while_split (fun c => negb (is_line_terminator c)) s)
    as (after & Hs & Hall & Ha).
  destruct (take_while _ s) as [|c cap'] eqn:E; [discriminate|].
  intros H. injection H as <-.
  exists after. split; [exact Hs | split; [split; [discriminate|]|]].
  - apply Forall_impl with (2 := Hall).
    intros a Ha'. apply negb_true_iff in Ha'. exact Ha'.
  - destruct after as [|a after]; [exact I|].
    apply negb_false_iff in Ha. exact Ha.
Qed.

Lemma spaces_dot_plus_capture (s cap : jsstring) :
  spaces_dot_plus s = Some cap ->
  exists spaces after,
    s = spaces ++ cap ++ after /\
    all_spaces spaces /\ one_line cap /\ ends_line after.
Proof.
  revert cap; induction s as [|c s IH]; intros cap; [discriminate|].
  assert (Hdot : dot_plus (c :: s) = Some cap ->
                 exists spaces after,
                   c :: s = spaces ++ cap ++ after /\
                   all_spaces spaces /\ one_line cap /\ ends_line after).
  { intros H. destruct (dot_plus_one_line _ H) as (after & Hs & Hc & Ha).
    exists [], after. repeat split; try assumption; try apply Hc.
    constructor. }
  simpl spaces_dot_plus. destruct (is_space c) eqn:Ec; [|exact Hdot].
  destruct (spaces_dot_plus s) as [cap'|]; [|exact Hdot].
  intros H. injection H as <-.
  destruct (IH cap' eq_refl) as (spaces & after & -> & Hsp & Hc & Ha).
  exists (c :: spaces), after.
  repeat split; try assumption; try apply Hc.
  constructor; assumption.
Qed.

Lemma at_line_starts_found try (s : jsstring) (b : bool) (cap : jsstring) :
  at_line_starts try b s = Some cap ->
  exists before here,
    s = before ++ here /\ try here = Some cap /\
    ((before = [] /\ b = true) \/
     exists p c, before = p ++ [c] /\ is_line_terminator c = true).
Proof.
  revert b; induction s as [|c s IH]; intros b; simpl.
  - destruct b; [|discriminate].
    destruct (try []) as [cap'|] eqn:E; [|discriminate].
    intros H. injection H as <-.
    exists [], []. repeat split; [exact E | left; split; reflexivity].
  - destruct (if b then try (c :: s) else None) as [cap'|] eqn:E.
    + intros H. injection H as <-. destruct b; [|discriminate].
      exists [], (c :: s). repeat split; [exact E | left; split; reflexivity].
    + intros H.
      destruct (IH _ H) as (before & here & -> & Ht & Hb).
      exists (c :: before), here. repeat split; [exact Ht|].
      right. destruct Hb as [[-> Hc] | (p & x & -> & Hx)].
      * exists [], c. split; [reflexivity | exact Hc].
      * exists (c :: p), x. split; [reflexivity | exact Hx].
Qed.

Lemma starts_line_of (before : jsstring) :
  (before = [] /\ true = true) \/
  (exists p c, before = p ++ [c] /\ is_line_terminator c = true) ->
  starts_line before.
Proof. intros [[-> _] | H]; [left; reflexivity | right; exact H]. Qed.

(** X11.  What the quote pattern captures: the text has a [>] at the
    start of a line, followed by white space (line breaks included, so
    the capture may sit on a later line), then the capture, which is
    non-empty, has no line terminator and runs to the end of its line. *)
Theorem quotePattern_capture (text cap : jsstring) :
  quotePattern text = Some cap ->
  exists before spaces after,
    text = before ++ gt_sign :: spaces ++ cap ++ after /\
    starts_line before /\ all_spaces spaces /\
    one_line cap /\ ends_line after.
Proof.
  unfold quotePattern. intros H.
  destruct (at_line_starts_found _ _ _ H) as (before & here & -> & Hq & Hb).
  unfold quote_at in Hq. destruct here as [|c here]; [discriminate|].
  destruct (N.eqb c gt_sign) eqn:Ec; [|discriminate].
  apply N.eqb_eq in Ec. subst c.
  destruct (spaces_dot_plus_capture _ Hq) as (spaces & after & -> & Hs & Hc & Ha).
  exists before, spaces, after.
  repeat split; try assumption; try apply Hc.
  apply starts_line_of, Hb.
Qed.

Lemma spaces_eol_split (s : jsstring) :
  spaces_eol s = true ->
  exists spaces after, s = spaces ++ after /\ all_spaces spaces /\ ends_line after.
Proof.
  induction s as [|c s IH]; simpl.
  - intros _. exists [], []. repeat split. constructor.
  - destruct (is_line_terminator c) eqn:El; simpl.
    + intros _. exists [], (c :: s). repeat split; [constructor | exact El].
    + rewrite andb_true_iff. intros [Hc Hs].
      destruct (IH Hs) as (spaces & after & -> & Hsp & Ha).
      exists (c :: spaces), after. repeat split; [|exact Ha].
      constructor; assumption.
Qed.

Lemma colon_at_capture (s cap : jsstring) :
  colon_at s = Some cap ->
  exists rest, s = cap ++ colon :: rest /\ one_line cap /\ spaces_eol rest = true.
Proof.
  revert cap; induction s as [|c s IH]; intros cap; simpl; [discriminate|].
  destruct (is_line_terminator c) eqn:El; [discriminate|].
  destruct (colon_at s) as [cap'|].
  - intros H. injection H as <-.
    destruct (IH cap' eq_refl) as (rest & -> & [_ Hall] & He).
    exists rest. repeat split; [discriminate | | exact He].
    constructor; assumption.
  - destruct s as [|c2 s2]; [discriminate|].
    destruct (N.eqb c2 colon && spaces_eol s2) eqn:E; [|discriminate].
    intros H. injection H as <-.
    apply andb_true_iff in E. destruct E as [Ec He].
    apply N.eqb_eq in Ec. subst c2.
    exists s2. repeat split; [discriminate | | exact He].
    constructor; [exact El | constructor].
Qed.

(** X12.  What the name-colon pattern captures: a line of the text is
    the capture, which is non-empty and has no line terminator, followed
    by a colon and by white space only up to the end of the line. *)
Theorem colonPattern_capture (text cap : jsstring) :
  colonPattern text = Some cap ->
  exists before spaces after,
    text = before ++ cap ++ colon :: spaces ++ after /\
    starts_line before /\ one_line cap /\
    all_spaces spaces /\ ends_line after.
Proof.
  unfold colonPattern. intros H.
  destruct (at_line_starts_found _ _ _ H) as (before & here & -> & Hc & Hb).
  destruct (colon_at_capture _ Hc) as (rest & -> & Hone & He).
  destruct (spaces_eol_split _ He) as (spaces & after & -> & Hs & Ha).
  exists before, spaces, after.
  repeat split; try assumption; try apply Hone.
  apply starts_line_of, Hb.
Qed.

Lemma quotePattern_capture_witness :
  let text := lit "so" ++ newline ++ lit ">" ++ newline ++ lit " what he said" ++
              newline ++ lit "ok" in
  quotePattern text = Some (lit "what he said") /\
  exists before spaces after,
    text = before ++ gt_sign :: spaces ++ lit "what he said" ++ after /\
    starts_line before /\ all_spaces spaces /\
    one_line (lit "what he said") /\ ends_line after.
Proof.
  intros text. split; [reflexivity|].
  apply (quotePattern_capture text). reflexivity.
Defined.

Lemma colonPattern_capture_witness :
  let text := lit "hi" ++ newline ++ lit "Alice:  " ++ newline ++ lit "ok" in
  colonPattern text = Some (lit "Alice") /\
  exists before spaces after,
    text = before ++ lit "Alice" ++ colon :: spaces ++ after /\
    starts_line before /\ one_line (lit "Alice") /\
    all_spaces spaces /\ ends_line after.
Proof.
  intros text. split; [reflexivity|].
  apply (colonPattern_capture text). reflexivity.
Defined.

Section HeuristicEdges.
Context {rt : Runtime}.

(** X13.  The detector and a window that is undefined (what the fetch
    gives on a 200 without [messages]).  A message without text, or
    whose text matches none of the three patterns, gives absent without
    touching the window, so nothing is thrown; as soon as one pattern
    matches the text, the scan of the undefined window throws a
    TypeError. *)
Theorem detectReplyFromText_undefined_window message :
  (truthy (text message) = false ->
   forall recentMessages,
     detectReplyFromText message recentMessages = Returned None) /\
  (forall t,
      text message = Some t -> t <> [] ->
      (mentionPattern t = None -> quotePattern t = None ->
       colonPattern t = None ->
       forall recentMessages,
         detectReplyFromText message recentMessages = Returned None) /\
      (mentionPattern t <> None \/ quotePattern t <> None \/
       colonPattern t <> None ->
       detectReplyFromText message None = Threw TypeError)).
Proof.
  split.
  - intros Hf recentMessages. unfold detectReplyFromText.
    destruct (text message) as [[|c s]|]; try reflexivity. discriminate.
  - intros t Ht Hne. unfold detectReplyFromText. rewrite Ht.
    destruct t as [|c s]; [congruence|]. split.
    + intros -> Hq Hc recentMessages. simpl. rewrite Hq, Hc. reflexivity.
    + intros H. destruct (mentionPattern (c :: s)) as [token|]; [reflexivity|].
      simpl. destruct (quotePattern (c :: s)); [reflexivity|].
      destruct (colonPattern (c :: s)); [reflexivity|].
      destruct H as [H | [H | H]]; congruence.
Qed.

(** X14.  The scans of the quote-line and name-colon patterns.  On a
    message with text whose mention scan finds nothing: when the quote
    pattern captures a fragment, its scan gives the first entry of the
    window, other than the message and by another author, whose text,
    lower-cased, contains the lower-cased fragment, and that entry is
    the result; when the quote scan finds nothing, the result is the
    same scan made with the capture of the name-colon pattern. *)
Theorem quoted_text_scan message t window :
  text message = Some t -> t <> [] ->
  mentionScan message t window = None ->
  (forall capture,
      quotePattern t = Some capture ->
      first_such (fun e => text_like (toLowerCase capture) e /\
                           other_than message e)
                 window (patternScan quotePattern message t window) /\
      forall e,
        patternScan quotePattern message t window = Some e ->
        detectReplyFromText message (Some window) = Returned (Some e)) /\
  (patternScan quotePattern message t window = None ->
   detectReplyFromText message (Some window) =
   Returned (patternScan colonPattern message t window) /\
   forall capture,
     colonPattern t = Some capture ->
     first_such (fun e => text_like (toLowerCase capture) e /\
                          other_than message e)
                window (patternScan colonPattern message t window)).
Proof.
  intros Ht Hne Hm.
  rewrite (detectReplyFromText_window _ window Ht Hne), Hm.
  split.
  - intros capture Hq. split.
    + unfold patternScan. rewrite Hq.
      apply find_first_such. intros e. apply quotes_spec.
    + intros e ->. reflexivity.
  - intros ->. split.
    + simpl. destruct (patternScan colonPattern message t window); reflexivity.
    + intros capture Hc. unfold patternScan. rewrite Hc.
      apply find_first_such. intros e. apply quotes_spec.
Qed.
End HeuristicEdges.

Lemma detectReplyFromText_undefined_window_witness :
  (text mention5 = Some (lit "@Alice lol") /\ lit "@Alice lol" <> [] /\
   mentionPattern (lit "@Alice lol") <> None) /\
  @detectReplyFromText asciiRuntime mention5 None = Threw TypeError.
Proof.
  split; [repeat split; discriminate|].
  destruct (@detectReplyFromText_undefined_window asciiRuntime mention5)
    as [_ H].
  destruct (H (lit "@Alice lol") eq_refl) as [_ H']; [discriminate|].
  apply H'. left. discriminate.
Defined.

Lemma quoted_text_scan_witness :
  let t := lit "> See You" ++ newline ++ lit "ok" in
  (text quote6 = Some t /\ t <> [] /\
   @mentionScan asciiRuntime quote6 t window6 = None /\
   @patternScan asciiRuntime quotePattern quote6 t window6 =
   Some (plain "4" "u1" "Alice" "See you later")) /\
  @detectReplyFromText asciiRuntime quote6 (Some window6) =
  Returned (Some (plain "4" "u1" "Alice" "See you later")).
Proof.
  intros t. split; [repeat split; discriminate|].
  destruct (@quoted_text_scan asciiRuntime quote6 t window6 eq_refl)
    as [H _]; [discriminate | reflexivity|].
  destruct (H (lit "See You") eq_refl) as [_ H'].
  apply H'. reflexivity.
Defined.

(* ================================================================== *)
(** * Further properties: the GroupMe side and the server *)

Section ServerProperties.
Context {net : Network} {api : GroupMeApi net} {rt : Runtime} (env : Env).


(** X15.  [getGroupMeMessage] never throws and makes exactly one
    request, for the message of the group with the access token.  It
    returns null when the request fails, when the status is not 200 and
    when the body of a 200 does not parse; on a 200 that parses it
    returns the [message] member of the response. *)
Theorem getGroupMeMessage_fails_soft groupId messageId st :
  let call := GetMessage groupId messageId (GROUPME_ACCESS_TOKEN env) in
  let outcome := fst (respond_groupme (world (bridge st)) call) in
  (exists r,
      getGroupMeMessage env groupId messageId st =
      (Returned r, after_call st call)) /\
  (outcome = None \/
   (exists response,
       outcome = Some response /\
       (gm_statusCode response <> 200%Z \/
        gm_body response = MalformedMessage)) ->
   fst (getGroupMeMessage env groupId messageId st) = Returned None) /\
  (forall response m,
      outcome = Some response -> gm_statusCode response = 200%Z ->
      gm_body response = MessageMember m ->
      fst (getGroupMeMessage env groupId messageId st) = Returned m).
Proof.
  intros call outcome. subst outcome call.
  unfold getGroupMeMessage, try_catch_S, makeGroupMeRequest, after_call.
  cbn [bind S_Monad].
  destruct (respond_groupme (world (bridge st)) _) as [[response|] w];
    simpl.
  - destruct (gm_statusCode response =? 200)%Z eqn:E.
    + apply Z.eqb_eq in E.
      destruct (gm_body response) as [|m] eqn:Eb; simpl.
      * split; [eexists; reflexivity | split; [reflexivity|]].
        intros r m Hr _ Hb. injection Hr as <-. congruence.
      * split; [eexists; reflexivity | split].
        -- intros [H | (r & Hr & [H | H])]; try discriminate;
             injection Hr as <-; congruence.
        -- intros r m' Hr _ Hb. injection Hr as <-. congruence.
    + apply Z.eqb_neq in E.
      split; [eexists; reflexivity | split; [reflexivity|]].
      intros r m Hr H200. injection Hr as <-. congruence.
  - split; [eexists; reflexivity | split; [reflexivity|]].
    intros r m Hr. discriminate.
Qed.


Lemma server_post req st :
  str_eqb (method req) (lit "POST") = true ->
  server env req st =
  try_catch_S
    (match request_body req with
     | Unparseable => throw_S SyntaxError
     | data =>
         if str_eqb (parsedUrl_pathname req) (lit "/groupme") then
           match data with
           | ObjectBody data _ =>
               result <- on_bridge (handleGroupMeWebhook env data) ;;
               ret {| status := if success result then 200 else 500;
                      response_body := Json result |}
           | _ => throw_S TypeError
           end
         else if str_eqb (parsedUrl_pathname req) (lit "/discord") then
           match data with
           | ObjectBody _ data =>
               if from_webhook_or_bot data then
                 ret {| status := 200; response_body := Json ignoredResult |}
               else
                 success <- sendToGroupMe env data ;;
                 ret {| status := if success then 200 else 500;
                        response_body := Json (successResult success) |}
           | _ => throw_S TypeError
           end
         else ret notFound
     end)
    (fun error => ret internalError) st.
Proof.
  intros Hm. apply str_eqb_eq in Hm. unfold server. rewrite Hm. reflexivity.
Qed.

(** [POST /groupme] by the outcome of the handler. *)
Lemma groupme_route_run req data other st :
  str_eqb (method req) (lit "POST") = true ->
  parsedUrl_pathname req = lit "/groupme" ->
  request_body req = ObjectBody data other ->
  server env req st =
  match handleGroupMeWebhook env data (bridge st) with
  | (Returned result, b) =>
      (Returned {| status := if success result then 200 else 500;
                   response_body := Json result |},
       {| bridge := b; groupme_calls := groupme_calls st |})
  | (Threw e, b) =>
      (Returned internalError,
       {| bridge := b; groupme_calls := groupme_calls st |})
  end.
Proof.
  intros Hm Hp Hb. rewrite (server_post _ _ Hm), Hp, Hb.
  unfold try_catch_S, on_bridge. simpl.
  destruct (handleGroupMeWebhook env data (bridge st)) as [[result|e] b];
    reflexivity.
Qed.

(** X17.  [POST /groupme] with a body that parses to a payload always
    gets an answer and never causes a request to the bot API.  The
    status is 200 exactly when the handler came to a result whose
    [success] is true, and 500 otherwise, a throw of the handler
    included.  So a bot's payload is answered 200 with the ignored
    report and no request at all, and without the webhook address every
    other payload is answered 500. *)
Theorem groupme_route req data other st :
  str_eqb (method req) (lit "POST") = true ->
  parsedUrl_pathname req = lit "/groupme" ->
  request_body req = ObjectBody data other ->
  (exists response st',
      server env req st = (Returned response, st') /\
      groupme_calls st' = groupme_calls st /\
      (status response = 200%Z \/ status response = 500%Z) /\
      (status response = 200%Z <->
       exists result,
         fst (handleGroupMeWebhook env data (bridge st)) = Returned result /\
         success result = true /\
         response_body response = Json result)) /\
  (sender_type data = Some (lit "bot") ->
   server env req st =
   (Returned {| status := 200; response_body := Json ignoredResult |}, st)) /\
  (opt_is (sender_type data) (lit "bot") = false ->
   DISCORD_WEBHOOK_URL env = None ->
   fst (server env req st) = Returned internalError).
Proof.
  intros Hm Hp Hb. rewrite (groupme_route_run _ st Hm Hp Hb).
  split; [|split].
  - destruct (handleGroupMeWebhook env data (bridge st)) as [[result|e] b];
      simpl.
    + eexists. eexists. split; [reflexivity|]. simpl.
      split; [reflexivity|].
      destruct (success result) eqn:Es; (split; [auto|]); split.
      * intros _. exists result. repeat split. exact Es.
      * reflexivity.
      * discriminate.
      * intros (r & E & Hs & _). injection E as <-. congruence.
    + eexists. eexists. split; [reflexivity|]. simpl.
      split; [reflexivity | split; [auto|]].
      split; [discriminate | intros (r & E & _); discriminate].
  - intros Hbot. unfold handleGroupMeWebhook.
    rewrite (proj2 (opt_is_eq _ _) Hbot). simpl.
    destruct st as [b calls]. reflexivity.
  - intros Hnb Hu.
    pose proof (no_address_throws env data (bridge st) Hnb Hu) as Hx.
    destruct (handleGroupMeWebhook env data (bridge st)) as [c b].
    simpl in Hx. subst c. reflexivity.
Qed.



End ServerProperties.

Lemma getGroupMeMessage_fails_soft_witness :
  let st := @serving scripted [] in
  let call := GetMessage (lit "g") (lit "7") (Some (lit "tok")) in
  (exists response,
      fst (@respond_groupme scripted (acceptingApi scripted)
             (world (bridge st)) call) = Some response /\
      (gm_statusCode response <> 200%Z \/
       gm_body response = MalformedMessage)) /\
  fst (@getGroupMeMessage scripted (acceptingApi scripted) configured
         (lit "g") (lit "7") st) = Returned None.
Proof.
  intros st call.
  assert (H : exists response,
             fst (@respond_groupme scripted (acceptingApi scripted)
                    (world (bridge st)) call) = Some response /\
             (gm_statusCode response <> 200%Z \/
              gm_body response = MalformedMessage)).
  { eexists. split; [reflexivity | right; reflexivity]. }
  split; [exact H|].
  apply (@getGroupMeMessage_fails_soft scripted (acceptingApi scripted)
           configured (lit "g") (lit "7") st).
  right. exact H.
Defined.


Lemma groupme_route_witness :
  let req := post "/groupme" (ObjectBody botPayload fromUser) in
  let st := @serving scripted [] in
  (str_eqb (method req) (lit "POST") = true /\
   parsedUrl_pathname req = lit "/groupme" /\
   request_body req = ObjectBody botPayload fromUser /\
   sender_type botPayload = Some (lit "bot")) /\
  @server scripted (acceptingApi scripted) asciiRuntime configured req st =
  (Returned {| status := 200; response_body := Json ignoredResult |}, st).
Proof.
  intros req st. split; [repeat split|].
  apply (@groupme_route scripted (acceptingApi scripted) asciiRuntime
           configured req botPayload fromUser st eq_refl eq_refl eq_refl).
  reflexivity.
Defined.



(* ================================================================== *)
(** * Further properties: the two versions *)

Section Versions.
Context {net : Network} {rt : Runtime} (env : Env).

Lemma earlier_sendToDiscord message :
  Earlier.sendToDiscord env message = sendToDiscord env message None.
Proof. reflexivity. Qed.

(** X21.  The version with reply context extends the earlier one: when
    the access token is not set, both handlers make the same requests in
    the same order, leave the same state, throw alike, and give the same
    report, but for the [hasReply] member that the earlier version does
    not have. *)
Theorem earlier_version_agrees data st :
  truthy (GROUPME_ACCESS_TOKEN env) = false ->
  Earlier.handleGroupMeWebhook env data st =
  (match fst (handleGroupMeWebhook env data st) with
   | Returned r => Returned (without_hasReply r)
   | Threw e => Threw e
   end,
   snd (handleGroupMeWebhook env data st)).
Proof.
  intros Ht. unfold Earlier.handleGroupMeWebhook, handleGroupMeWebhook.
  destruct (opt_is (sender_type data) (lit "bot")); [reflexivity|].
  destruct (latestReaction data) as [latest|].
  - cbn [bind M_Monad].
    destruct (sendReactionToDiscord env _ data st) as [[ok|e] st'];
      reflexivity.
  - unfold resolveReplyContext. rewrite Ht, earlier_sendToDiscord.
    cbn [bind ret M_Monad].
    destruct (sendToDiscord env data None st) as [[ok|e] st']; reflexivity.
Qed.
End Versions.

Lemma earlier_version_agrees_witness :
  let st := @start scripted [Some {| statusCode := 204; body := Malformed |}] in
  truthy (GROUPME_ACCESS_TOKEN tokenless) = false /\
  @Earlier.handleGroupMeWebhook scripted tokenless reply9 st =
  (Returned (without_hasReply (messageResult true false)),
   snd (@handleGroupMeWebhook scripted asciiRuntime tokenless reply9 st)).
Proof.
  intros st. split; [reflexivity|].
  apply (@earlier_version_agrees scripted asciiRuntime tokenless reply9 st).
  reflexivity.
Defined.
